(** * The delivery simulation engine of purple-merit

    A shallow embedding of [backend/src/services/simulationService.ts]
    together with the virtuals of the [Route] and [Driver] models it reads,
    of the middleware and the route that run it, and the properties of the
    engine proved (or refuted) on that embedding.

    The engine is embedded twice.

    The first embedding has the whole service.  Its conventions:
    - a JavaScript [number] is an exact rational ([Q]); rounding error of
      IEEE doubles is not modelled, and neither are [NaN] and the
      infinities;
    - a [Date] is its time value, the number of milliseconds since the
      epoch, or [None] for an Invalid Date; the local time zone is a fixed
      offset (no daylight saving changes);
    - the three queries of a run return their documents;
    - a thrown [Error] is the [Throw] case of [Result], carrying the
      message;
    - the objects of [assignments] that the inner loop aliases through
      [bestDriver] are addressed by their index in the array.
    It carries the properties that do not depend on how the arithmetic
    rounds: which lists the ids go to, the errors, the messages, the
    shape of the results, the validation and the route.

    The second embedding, [Double], has the assignment of the orders and
    the results per order with the arithmetic of the code: a [number] is
    an IEEE 754 binary64 value and the local time follows the rules of a
    time zone.  It carries the properties of the hours, the distances,
    the scores and the money. *)

From Stdlib Require Import ZArith QArith Qround Qminmax Qabs Lqa Lia String Ascii.
From Stdlib Require Import Sorted Permutation.
From Stdlib Require Floats.
From stdpp Require Import gmap strings list fin_maps.

Local Open Scope Z_scope.

(** ** Numbers *)

(** [x > y] on numbers. *)
Definition Qgtb (x y : Q) : bool := negb (Qle_bool x y).

(** [Math.round]: the nearest integer, ties towards plus infinity. *)
Definition Math_round (x : Q) : Z := Qfloor (x + (1 # 2)).

(** [ToIntegerOrInfinity] on a finite number: truncation towards zero. *)
Definition ToIntegerOrInfinity (x : Q) : Z :=
  if Qle_bool 0 x then Qfloor x else Qceiling x.

(** ** Errors *)

Inductive Result (A : Type) : Type :=
| Ok (a : A)
| Throw (message : string).
Arguments Ok {A} a.
Arguments Throw {A} message.

(** Sequencing of computations that may throw: [x ← r; k] runs [k] on the
    value of [r], or propagates its throw.  [mapM f xs] is then
    [xs.map(f)] for a callback that may throw: the first throw aborts. *)
#[global] Instance Result_bind : MBind Result := λ A B k r,
  match r with
  | Ok a => k a
  | Throw m => Throw m
  end.
#[global] Instance Result_ret : MRet Result := λ A a, Ok a.

(** ** Dates (ECMAScript time values) *)

Module JSDate.

Definition Date : Type := option Z.

Definition msPerMinute : Z := 60000.
Definition msPerHour : Z := 3600000.
Definition msPerDay : Z := 86400000.

Section Zone.
(** Offset of local time from UTC, in milliseconds. *)
Variable localTZA : Z.

Definition LocalTime (t : Z) : Z := t + localTZA.
Definition UTC (t : Z) : Z := t - localTZA.

Definition Day (t : Z) : Z := t / msPerDay.
Definition HourFromTime (t : Z) : Z := (t / msPerHour) mod 24.
Definition MinFromTime (t : Z) : Z := (t / msPerMinute) mod 60.
Definition SecFromTime (t : Z) : Z := (t / 1000) mod 60.
Definition msFromTime (t : Z) : Z := t mod 1000.

Definition MakeTime (hour min sec ms : Z) : Z :=
  hour * msPerHour + min * msPerMinute + sec * 1000 + ms.
Definition MakeDate (day time : Z) : Z := day * msPerDay + time.

(** [d.setHours(hour, min, sec, ms)]; a [NaN] argument gives an
    Invalid Date. *)
Definition setHours (d : Date) (hour min : option Z) (sec ms : Z) : Date :=
  match d, hour, min with
  | Some t, Some h, Some m =>
      Some (UTC (MakeDate (Day (LocalTime t)) (MakeTime h m sec ms)))
  | _, _, _ => None
  end.

(** [d.getMinutes()]: [None] is [NaN]. *)
Definition getMinutes (d : Date) : option Z :=
  match d with
  | Some t => Some (MinFromTime (LocalTime t))
  | None => None
  end.

(** [d.setMinutes(min)]: the argument is a number, of which [MakeTime]
    keeps the integer part. *)
Definition setMinutes (d : Date) (min : option Q) : Date :=
  match d, min with
  | Some t, Some m =>
      let tl := LocalTime t in
      Some (UTC (MakeDate (Day tl)
                   (MakeTime (HourFromTime tl) (ToIntegerOrInfinity m)
                      (SecFromTime tl) (msFromTime tl))))
  | _, _ => None
  end.
End Zone.

(** [a <= b] on two dates compares the time values; a comparison with
    [NaN] is false. *)
Definition le (a b : Date) : bool :=
  match a, b with
  | Some x, Some y => x <=? y
  | _, _ => false
  end.

End JSDate.

(** ** The entities read by the engine *)

Module Driver.
Record t : Type := mk {
  _id : string;
  name : string;
  currentShiftHours : Q;
  pastWeekHours : Q
}.

(** virtual [isFatigued] *)
Definition isFatigued (d : t) : bool := Qgtb (currentShiftHours d) 8.
End Driver.

Inductive TrafficLevel : Type := Low | Medium | High.

Module Route.
Record t : Type := mk {
  routeId : string;
  distance : Q;
  trafficLevel : TrafficLevel;
  baseTime : Q
}.

(** virtual [fuelCost] *)
Definition fuelCost (r : t) : Q :=
  let baseCost := (distance r * 5)%Q in
  let surcharge :=
    match trafficLevel r with High => (distance r * 2)%Q | _ => 0%Q end in
  (baseCost + surcharge)%Q.

Definition trafficMultipliers (l : TrafficLevel) : Q :=
  match l with
  | Low => 1
  | Medium => 12 # 10
  | High => 15 # 10
  end.

(** virtual [adjustedTime] *)
Definition adjustedTime (r : t) : Q :=
  inject_Z (Math_round (baseTime r * trafficMultipliers (trafficLevel r))).
End Route.

Module Order.
Record t : Type := mk {
  orderId : string;
  value : Q;
  assignedRoute : string;
  deliveryTimestamp : Z;
  isDelivered : bool
}.
End Order.

(** ** The simulation service *)

Record SimulationInput : Type := {
  availableDrivers : Z;
  startTime : string;
  maxHoursPerDay : Q
}.

Record DriverAssignment : Type := {
  driverId : string;
  driverName : string;
  assignedOrders : list string;
  totalHours : Q;
  totalDistance : Q;
  isFatigued : bool
}.

Inductive DeliveryStatus : Type := OnTime | Late.

Record OrderResult : Type := {
  orderId : string;
  assignedDriver : string;
  routeId : string;
  orderValue : Q;
  deliveryStatus : DeliveryStatus;
  fuelCost : Q;
  penalty : Q;
  bonus : Q;
  profit : Q
}.

(** [new Map(entries)]: the entries are set in order, a later entry
    replaces an earlier one with the same key. *)
Definition newMap {V} (entries : list (string * V)) : gmap string V :=
  fold_left (λ m kv, <[kv.1 := kv.2]> m) entries ∅.

(** [new Map(routes.map(route => [route.routeId, route]))] *)
Definition routeMapOf (routes : list Route.t) : gmap string Route.t :=
  newMap (map (λ route, (Route.routeId route, route)) routes).

(** [xs.sort(compare)]: the sort is stable, so with a consistent
    comparison its result is the one of an insertion sort that puts an
    element before the first later one it does not exceed. *)
Section Sort.
Context {A : Type} (compare : A → A → Z).

Fixpoint sort_insert (x : A) (l : list A) : list A :=
  match l with
  | [] => [x]
  | y :: rest =>
      if compare x y <=? 0 then x :: y :: rest else y :: sort_insert x rest
  end.

Definition Array_sort (l : list A) : list A := foldr sort_insert [] l.
End Sort.

Definition canDriverHandleOrder
    (assignment : DriverAssignment) (route : Route.t) (maxHoursPerDay : Q)
    (startTime : JSDate.Date) : bool :=
  let additionalHours := (Route.adjustedTime route / 60)%Q in
  if Qgtb (totalHours assignment + additionalHours) maxHoursPerDay
  then false
  else true.

Definition calculateDriverScore
    (assignment : DriverAssignment) (route : Route.t) : Q :=
  let score := 100%Q in
  let score := if isFatigued assignment then (score - 30)%Q else score in
  let score :=
    (score - inject_Z (Z.of_nat (length (assignedOrders assignment))) * 5)%Q in
  let score := (score - totalDistance assignment * (1 # 10))%Q in
  Qmax 0 score.

(** The inner loop of [assignOrdersToDrivers]: [best] is the pair of
    [bestDriver] (the index of the aliased assignment) and [bestScore],
    [i] the index of the head of [assignments]. *)
Fixpoint findBestDriver
    (assignments : list DriverAssignment) (i : nat) (route : Route.t)
    (maxHoursPerDay : Q) (startTime : JSDate.Date)
    (best : option nat * Q) : option nat * Q :=
  match assignments with
  | [] => best
  | assignment :: rest =>
      let canHandle :=
        canDriverHandleOrder assignment route maxHoursPerDay startTime in
      let best :=
        if canHandle then
          let score := calculateDriverScore assignment route in
          if Qgtb score best.2 then (Some i, score) else best
        else best in
      findBestDriver rest (S i) route maxHoursPerDay startTime best
  end.

(** The three updates made through [bestDriver]. *)
Definition assignTo (order : Order.t) (route : Route.t)
    (bestDriver : DriverAssignment) : DriverAssignment :=
  {| driverId := driverId bestDriver;
     driverName := driverName bestDriver;
     assignedOrders := assignedOrders bestDriver ++ [Order.orderId order];
     totalHours := (totalHours bestDriver + Route.adjustedTime route / 60)%Q;
     totalDistance := (totalDistance bestDriver + Route.distance route)%Q;
     isFatigued := isFatigued bestDriver |}.

(** One iteration of the outer loop. *)
Definition assignOrder
    (routeMap : gmap string Route.t) (maxHoursPerDay : Q)
    (startTime : JSDate.Date)
    (assignments : list DriverAssignment) (order : Order.t)
    : list DriverAssignment :=
  match routeMap !! Order.assignedRoute order with
  | None => assignments
  | Some route =>
      let best :=
        findBestDriver assignments 0%nat route maxHoursPerDay startTime
          (None, (-1)%Q) in
      match best.1 with
      | Some i => alter (assignTo order route) i assignments
      | None => assignments
      end
  end.

Definition initialAssignment (driver : Driver.t) : DriverAssignment :=
  {| driverId := Driver._id driver;
     driverName := Driver.name driver;
     assignedOrders := [];
     totalHours := 0;
     totalDistance := 0;
     isFatigued := Qgtb (Driver.currentShiftHours driver) 8 |}.

Definition compareDeadline (a b : Order.t) : Z :=
  Order.deliveryTimestamp a - Order.deliveryTimestamp b.

Definition assignOrdersToDrivers
    (drivers : list Driver.t) (orders : list Order.t) (routes : list Route.t)
    (startTime : JSDate.Date) (maxHoursPerDay : Q) : list DriverAssignment :=
  let assignments := map initialAssignment drivers in
  let sortedOrders := Array_sort compareDeadline orders in
  let routeMap := routeMapOf routes in
  fold_left (assignOrder routeMap maxHoursPerDay startTime)
    sortedOrders assignments.

Definition calculateDeliveryTime (localTZA : Z)
    (startTime : JSDate.Date) (route : Route.t) (isFatigued : bool)
    : JSDate.Date :=
  let adjustedTime := Route.adjustedTime route in
  let adjustedTime :=
    if isFatigued then (adjustedTime * (13 # 10))%Q else adjustedTime in
  let deliveryTime := startTime in
  JSDate.setMinutes localTZA deliveryTime
    (m ← JSDate.getMinutes localTZA deliveryTime;
     Some (inject_Z m + adjustedTime)%Q).

(** [xs.includes(x)] on an array of strings. *)
Definition includes (xs : list string) (x : string) : bool :=
  bool_decide (x ∈ xs).

(** [s || fallback] on strings: the empty string is falsy. *)
Definition orElse (s fallback : string) : string :=
  match s with
  | EmptyString => fallback
  | _ => s
  end.

(** The callback of [orders.map] in [calculateOrderResults]. *)
Definition orderResult (localTZA : Z)
    (routeMap : gmap string Route.t)
    (driverAssignments : list DriverAssignment) (startTime : JSDate.Date)
    (order : Order.t) : Result OrderResult :=
  match routeMap !! Order.assignedRoute order with
  | None =>
      Throw ("Route " +:+ Order.assignedRoute order +:+ " not found")
  | Some route =>
      let assignedDriver :=
        List.find (λ d, includes (assignedOrders d) (Order.orderId order))
          driverAssignments in
      let deliveryTime :=
        calculateDeliveryTime localTZA startTime route
          (from_option isFatigued false assignedDriver) in
      let expectedDelivery := Some (Order.deliveryTimestamp order) in
      let isOnTime := JSDate.le deliveryTime expectedDelivery in
      let fuelCost := Route.fuelCost route in
      let penalty := if isOnTime then 0%Q else 50%Q in
      let bonus :=
        if Qgtb (Order.value order) 1000 && isOnTime
        then (Order.value order * (1 # 10))%Q else 0%Q in
      let profit := (Order.value order + bonus - penalty - fuelCost)%Q in
      Ok {| orderId := Order.orderId order;
            assignedDriver :=
              orElse (from_option driverName EmptyString assignedDriver)
                "Unassigned";
            routeId := Order.assignedRoute order;
            orderValue := Order.value order;
            deliveryStatus := if isOnTime then OnTime else Late;
            fuelCost := fuelCost;
            penalty := penalty;
            bonus := bonus;
            profit := profit |}
  end.

(** The [driverMap] that [calculateOrderResults] also builds is read
    nowhere. *)
Definition calculateOrderResults (localTZA : Z)
    (orders : list Order.t) (routes : list Route.t)
    (driverAssignments : list DriverAssignment) (startTime : JSDate.Date)
    : Result (list OrderResult) :=
  let routeMap := routeMapOf routes in
  mapM (orderResult localTZA routeMap driverAssignments startTime) orders.

Module KPIs.
Record t : Type := mk {
  totalProfit : Q;
  efficiencyScore : Q;
  onTimeDeliveries : nat;
  lateDeliveries : nat;
  fuelCost : Q;
  penalties : Q;
  bonuses : Q
}.
End KPIs.

Definition sumOf (f : OrderResult → Q) (orderResults : list OrderResult) : Q :=
  fold_left (λ sum order, (sum + f order)%Q) orderResults 0%Q.

Definition isStatus (s : DeliveryStatus) (order : OrderResult) : bool :=
  match s, deliveryStatus order with
  | OnTime, OnTime | Late, Late => true
  | _, _ => false
  end.

(** [Math.round(x * 100) / 100] *)
Definition round2 (x : Q) : Q := (inject_Z (Math_round (x * 100)) / 100)%Q.

Definition calculateKPIs (orderResults : list OrderResult) : KPIs.t :=
  let totalProfit := sumOf profit orderResults in
  let onTimeDeliveries := length (List.filter (isStatus OnTime) orderResults) in
  let lateDeliveries := length (List.filter (isStatus Late) orderResults) in
  let totalDeliveries := length orderResults in
  let efficiencyScore :=
    if (0 <? totalDeliveries)%nat
    then (inject_Z (Z.of_nat onTimeDeliveries)
          / inject_Z (Z.of_nat totalDeliveries) * 100)%Q
    else 0%Q in
  let fuelCost := sumOf fuelCost orderResults in
  let penalties := sumOf penalty orderResults in
  let bonuses := sumOf bonus orderResults in
  {| KPIs.totalProfit := round2 totalProfit;
     KPIs.efficiencyScore := round2 efficiencyScore;
     KPIs.onTimeDeliveries := onTimeDeliveries;
     KPIs.lateDeliveries := lateDeliveries;
     KPIs.fuelCost := round2 fuelCost;
     KPIs.penalties := penalties;
     KPIs.bonuses := round2 bonuses |}.

(** The result has the fields of the KPIs ([...kpis]) and the two
    lists. *)
Record SimulationResult : Type := {
  kpis : KPIs.t;
  driverAssignments : list DriverAssignment;
  orderResults : list OrderResult
}.

(** ** Regular expressions

    The patterns the service uses have character classes, sequence,
    alternation and the optional item; [test] on a pattern anchored at both
    ends asks whether the whole string is in its language, which the
    derivatives decide. *)

Module RegExp.

Inductive t : Type :=
| Never
| Empty
| Range (lo hi : ascii)
| Seq (r1 r2 : t)
| Alt (r1 r2 : t)
| Opt (r : t).

Definition inRange (lo hi c : ascii) : bool :=
  ((N_of_ascii lo <=? N_of_ascii c) && (N_of_ascii c <=? N_of_ascii hi))%N.

Fixpoint nullable (r : t) : bool :=
  match r with
  | Never => false
  | Empty => true
  | Range _ _ => false
  | Seq r1 r2 => nullable r1 && nullable r2
  | Alt r1 r2 => nullable r1 || nullable r2
  | Opt _ => true
  end.

Fixpoint deriv (c : ascii) (r : t) : t :=
  match r with
  | Never => Never
  | Empty => Never
  | Range lo hi => if inRange lo hi c then Empty else Never
  | Seq r1 r2 =>
      if nullable r1
      then Alt (Seq (deriv c r1) r2) (deriv c r2)
      else Seq (deriv c r1) r2
  | Alt r1 r2 => Alt (deriv c r1) (deriv c r2)
  | Opt r => deriv c r
  end.

(** [/^r$/.test(s)] *)
Fixpoint test (r : t) (s : string) : bool :=
  match s with
  | EmptyString => nullable r
  | String c rest => test (deriv c r) rest
  end.

End RegExp.

(** [/^([01]?[0-9]|2[0-3]):[0-5][0-9]$/] *)
Definition timeRegex : RegExp.t :=
  RegExp.Seq
    (RegExp.Alt
       (RegExp.Seq (RegExp.Opt (RegExp.Range "0" "1")) (RegExp.Range "0" "9"))
       (RegExp.Seq (RegExp.Range "2" "2") (RegExp.Range "0" "3")))
    (RegExp.Seq (RegExp.Range ":" ":")
       (RegExp.Seq (RegExp.Range "0" "5") (RegExp.Range "0" "9"))).

Definition validateSimulationInput (input : SimulationInput) : Result unit :=
  if availableDrivers input <=? 0 then
    Throw "Available drivers must be greater than 0"
  else if Qle_bool (maxHoursPerDay input) 0
          || Qgtb (maxHoursPerDay input) 24 then
    Throw "Max hours per day must be between 1 and 24"
  else if negb (RegExp.test timeRegex (startTime input)) then
    Throw "Start time must be in HH:MM format"
  else Ok ().

(** [s.split(sep)] for a separator of one character. *)
Fixpoint String_split (sep : ascii) (s : string) : list string :=
  match s with
  | EmptyString => [EmptyString]
  | String c rest =>
      if Ascii.eqb c sep then EmptyString :: String_split sep rest
      else
        match String_split sep rest with
        | piece :: pieces => String c piece :: pieces
        | [] => [String c EmptyString]
        end
  end.

(** [Number(s)] on strings of decimal digits, the only ones that reach it
    past [validateSimulationInput]; [None] is [NaN]. *)
Fixpoint Number_from (acc : Z) (s : string) : option Z :=
  match s with
  | EmptyString => Some acc
  | String c rest =>
      if RegExp.inRange "0" "9" c
      then Number_from (acc * 10 + (Z.of_N (N_of_ascii c) - 48)) rest
      else None
  end.

Definition Number (s : string) : option Z := Number_from 0 s.

(** ** The world outside the engine: the three collections as fetched, the
    wall clock read by [new Date()], and the local time zone. *)
Record World : Type := {
  Driver_collection : list Driver.t;
  Route_collection : list Route.t;
  Order_collection : list Order.t;
  now : Z;
  localTZA : Z
}.

(** [Driver.find().limit(n)], [Route.find()],
    [Order.find({ isDelivered: false })] *)
Definition fetchDrivers (w : World) (n : Z) : list Driver.t :=
  take (Z.to_nat n) (Driver_collection w).
Definition fetchRoutes (w : World) : list Route.t := Route_collection w.
Definition fetchOrders (w : World) : list Order.t :=
  List.filter (λ o, negb (Order.isDelivered o)) (Order_collection w).

(** [const startTime = new Date(); startTime.setHours(h, m, 0, 0)] with
    [[h, m] = input.startTime.split(':').map(Number)]. *)
Definition parseStartTime (w : World) (s : string) : JSDate.Date :=
  let parts := map Number (String_split ":" s) in
  let startHour := mjoin (parts !! 0%nat) in
  let startMinute := mjoin (parts !! 1%nat) in
  JSDate.setHours (localTZA w) (Some (now w)) startHour startMinute 0 0.

(** The body of the [try] block of [runSimulation]. *)
Definition simulate (w : World) (input : SimulationInput)
    : Result SimulationResult :=
  _ ← validateSimulationInput input;
  let drivers := fetchDrivers w (availableDrivers input) in
  let routes := fetchRoutes w in
  let orders := fetchOrders w in
  if bool_decide (length drivers = 0%nat) then
    Throw "No drivers available for simulation"
  else if bool_decide (length orders = 0%nat) then
    Throw "No pending orders for simulation"
  else
    let startTime := parseStartTime w (startTime input) in
    let driverAssignments :=
      assignOrdersToDrivers drivers orders routes startTime
        (maxHoursPerDay input) in
    orderResults ←
      calculateOrderResults (localTZA w) orders routes driverAssignments
        startTime;
    let kpis := calculateKPIs orderResults in
    Ok {| kpis := kpis;
          driverAssignments := driverAssignments;
          orderResults := orderResults |}.

Definition runSimulation (w : World) (input : SimulationInput)
    : Result SimulationResult :=
  match simulate w input with
  | Ok result => Ok result
  | Throw message => Throw ("Simulation failed: " +:+ message)
  end.

(** ** Notions used to state the properties *)

(** What [bestDriver] and [bestScore] hold once the drivers [seen] have
    been scanned: nothing if none of them can take the order, and
    otherwise the first of those of the highest score that can. *)
Definition bestOf (route : Route.t) (maxHours : Q) (st : JSDate.Date)
    (seen : list DriverAssignment) (best : option nat * Q) : Prop :=
  let can a := canDriverHandleOrder a route maxHours st in
  let score a := calculateDriverScore a route in
  match best.1 with
  | None =>
      best.2 = (-1)%Q ∧ ∀ k a, seen !! k = Some a → can a = false
  | Some j =>
      ∃ a, seen !! j = Some a ∧ can a = true ∧ best.2 = score a ∧
        ∀ k a', seen !! k = Some a' → can a' = true →
          (score a' <= score a)%Q ∧ ((k < j)%nat → (score a' < score a)%Q)
  end.

(** All the order ids that have been assigned, driver after driver. *)
Definition allAssigned (assignments : list DriverAssignment) : list string :=
  concat (map assignedOrders assignments).

(** ** The data of the test suite ([simulationService.test.ts]) *)

Module Sample.
Local Open Scope string_scope.

Definition driver1 : Driver.t := Driver.mk "driver1" "Test Driver 1" 6 35.
Definition fatiguedDriver : Driver.t :=
  Driver.mk "driver1" "Fatigued Driver" 9 40.

(** distance 25, Medium, 45 minutes: fuel cost 125, adjusted time 54 *)
Definition routeR001 : Route.t := Route.mk "R001" 25 Medium 45.
(** distance 15, Low, 20 minutes: fuel cost 75, adjusted time 20 *)
Definition shortRoute : Route.t := Route.mk "R001" 15 Low 20.

(** value 1500, deadline 2024-01-15T12:00:00Z *)
Definition orderO001 : Order.t :=
  Order.mk "O001" 1500 "R001" 1705320000000 false.
(** value 1500, deadline 2024-01-15T10:00:00Z *)
Definition highValueOrder : Order.t :=
  Order.mk "O001" 1500 "R001" 1705312800000 false.
(** an order on a route that no collection has *)
Definition strayOrder : Order.t :=
  Order.mk "O002" 800 "R999" 1705320000000 false.

Definition input : SimulationInput :=
  {| availableDrivers := 1; startTime := "08:00"; maxHoursPerDay := 10 |}.

(** 2024-01-15T00:00:00Z and 2026-11-03T00:00:00Z *)
Definition jan15 : Z := 1705276800000.
Definition nov3 : Z := 1793664000000.

(** The first test, run in UTC on the day of the deadline. *)
Definition world : World :=
  {| Driver_collection := [driver1];
     Route_collection := [routeR001];
     Order_collection := [orderO001];
     now := jan15;
     localTZA := 0 |}.

(** The test of the penalty: distance 50, High, 60 minutes (fuel cost
    350, adjusted time 90), and an order of value 800 due at
    2024-01-15T09:00:00Z. *)
Definition longRoute : Route.t := Route.mk "R001" 50 High 60.
Definition lateOrder : Order.t :=
  Order.mk "O001" 800 "R001" 1705309200000 false.
Definition lateWorld : World :=
  {| Driver_collection := [driver1];
     Route_collection := [longRoute];
     Order_collection := [lateOrder];
     now := jan15;
     localTZA := 0 |}.

(** The same input with a day of one hour, too short for [longRoute]. *)
Definition tightInput : SimulationInput :=
  {| availableDrivers := 1; startTime := "08:00"; maxHoursPerDay := 1 |}.

(** The test of the bonus, run on a day [today]. *)
Definition bonusWorld (today : Z) : World :=
  {| Driver_collection := [driver1];
     Route_collection := [shortRoute];
     Order_collection := [highValueOrder];
     now := today;
     localTZA := 0 |}.
End Sample.

(** What the first test leaves in [driverAssignments]. *)
Definition Sample_assignment : DriverAssignment :=
  {| driverId := "driver1";
     driverName := "Test Driver 1";
     assignedOrders := ["O001"%string];
     totalHours := 54 # 60;
     totalDistance := 25;
     isFatigued := false |}.

(** What the first test leaves in [orderResults], and its result. *)
Definition Sample_orderResult : OrderResult :=
  {| orderId := "O001";
     assignedDriver := "Test Driver 1";
     routeId := "R001";
     orderValue := 1500;
     deliveryStatus := OnTime;
     fuelCost := 25 * 5 + 0;
     penalty := 0;
     bonus := 1500 * (1 # 10);
     profit := 1500 + 1500 * (1 # 10) - 0 - (25 * 5 + 0) |}.

Definition Sample_result : SimulationResult :=
  {| kpis := calculateKPIs [Sample_orderResult];
     driverAssignments := [Sample_assignment];
     orderResults := [Sample_orderResult] |}.

(** The messages of [validateSimulationInput]. *)
Definition validationMessages : list string :=
  [ "Available drivers must be greater than 0";
    "Max hours per day must be between 1 and 24";
    "Start time must be in HH:MM format" ]%string.

(** A start time written with two digits for the hour and two for the
    minute, in the 24-hour clock. *)
Definition digitOf (c : ascii) : Z := Z.of_N (N_of_ascii c) - 48.

Definition twoDigitHHMM (s : string) : bool :=
  match s with
  | String h1 (String h2 (String c (String m1 (String m2 EmptyString)))) =>
      RegExp.inRange "0" "9" h1 && RegExp.inRange "0" "9" h2
      && RegExp.inRange ":" ":" c
      && RegExp.inRange "0" "9" m1 && RegExp.inRange "0" "9" m2
      && (digitOf h1 * 10 + digitOf h2 <=? 23)
      && (digitOf m1 * 10 + digitOf m2 <=? 59)
  | _ => false
  end.

(** A regular expression with no string at all, told from its shape. *)
Fixpoint RegExp_dead (r : RegExp.t) : bool :=
  match r with
  | RegExp.Never => true
  | RegExp.Empty | RegExp.Range _ _ | RegExp.Opt _ => false
  | RegExp.Seq r1 r2 => RegExp_dead r1 || RegExp_dead r2
  | RegExp.Alt r1 r2 => RegExp_dead r1 && RegExp_dead r2
  end.

(** An order whose route id is the id of some route. *)
Definition routable (routes : list Route.t) (o : Order.t) : bool :=
  bool_decide (is_Some (routeMapOf routes !! Order.assignedRoute o)).

(** ** The route of the simulation and its middleware

    [middleware/auth.ts] and the handler of [POST /api/simulation/run].
    A middleware either answers or calls [next] with the request, which
    it may have extended.  What lies outside the repository is a
    parameter: [jwt.verify] with the secret, the lookup of the user, the
    classes of the errors they throw, and the validation of the body by
    the Joi schema. *)

Module Http.

(** The fields of the [User] model that the middleware reads. *)
Record User : Type := { role : string; isActive : bool }.

(** The two shapes of body that are sent. *)
Inductive Json : Type :=
| Failure (message : string)
| Success (message : string) (data : SimulationResult).

Record Response : Type := { status : Z; json : Json }.

Record Request (B : Type) : Type := {
  authorization : option string;
  user : option User;
  body : B
}.
Arguments authorization {B} _.
Arguments user {B} _.
Arguments body {B} _.

Inductive Outcome (B : Type) : Type :=
| Respond (res : Response)
| Next (req : Request B).
Arguments Respond {B} res.
Arguments Next {B} req.

(** A call that returns or throws. *)
Inductive Attempt (E A : Type) : Type :=
| Returned (a : A)
| Thrown (e : E).
Arguments Returned {E A} a.
Arguments Thrown {E A} e.

Section Middleware.
Context {B E Decoded : Type}.
Variable jwt_verify : string → Attempt E Decoded.
Variable User_findById : Decoded → Attempt E (option User).
Variables isJsonWebTokenError isTokenExpiredError : E → bool.

(** [authHeader && authHeader.split(' ')[1]]: [None] is [undefined]. *)
Definition tokenOf (authHeader : option string) : option string :=
  match authHeader with
  | None => None
  | Some EmptyString => Some EmptyString
  | Some header => String_split " " header !! 1%nat
  end.

(** The [catch] block of [authenticateToken]. *)
Definition authenticationError (error : E) : Response :=
  if isJsonWebTokenError error then
    {| status := 401; json := Failure "Invalid token" |}
  else if isTokenExpiredError error then
    {| status := 401; json := Failure "Token expired" |}
  else
    {| status := 500; json := Failure "Authentication error" |}.

Definition authenticateToken (req : Request B) : Outcome B :=
  let authHeader := authorization req in
  let token := tokenOf authHeader in
  match token with
  | None | Some EmptyString =>
      Respond {| status := 401; json := Failure "Access token is required" |}
  | Some token =>
      match jwt_verify token with
      | Thrown error => Respond (authenticationError error)
      | Returned decoded =>
          match User_findById decoded with
          | Thrown error => Respond (authenticationError error)
          | Returned found =>
              match found with
              | Some u =>
                  if negb (isActive u) then
                    Respond {| status := 401;
                               json := Failure "Invalid or inactive user" |}
                  else
                    Next {| authorization := authorization req;
                            user := Some u;
                            body := body req |}
              | None =>
                  Respond {| status := 401;
                             json := Failure "Invalid or inactive user" |}
              end
          end
      end
  end.

Definition authorizeRoles (roles : list string) (req : Request B)
    : Outcome B :=
  match user req with
  | None =>
      Respond {| status := 401; json := Failure "Authentication required" |}
  | Some u =>
      if negb (includes roles (role u)) then
        Respond {| status := 403; json := Failure "Insufficient permissions" |}
      else Next req
  end.

Definition requireAdmin : Request B → Outcome B :=
  authorizeRoles ["admin"%string].
Definition requireManager : Request B → Outcome B :=
  authorizeRoles ["manager"%string; "admin"%string].

(** [simulationSchema.validate(req.body)]: the message of the first error,
    or the value. *)
Variable simulationSchema_validate : B → string + SimulationInput.

(** The handler of [POST /run]. *)
Definition runHandler (w : World) (req : Request B) : Response :=
  match simulationSchema_validate (body req) with
  | inl message => {| status := 400; json := Failure message |}
  | inr value =>
      match
        runSimulation w
          {| availableDrivers := availableDrivers value;
             startTime := startTime value;
             maxHoursPerDay := maxHoursPerDay value |}
      with
      | Ok result =>
          {| status := 200;
             json := Success "Simulation completed successfully" result |}
      | Throw message => {| status := 500; json := Failure message |}
      end
  end.

(** [router.post('/run', authenticateToken, requireManager, handler)] *)
Definition postRun (w : World) (req : Request B) : Response :=
  match authenticateToken req with
  | Respond res => res
  | Next req =>
      match requireManager req with
      | Respond res => res
      | Next req => runHandler w req
      end
  end.
End Middleware.

End Http.

(** A string has a given character. *)
Fixpoint String_has (c : ascii) (s : string) : bool :=
  match s with
  | EmptyString => false
  | String c' rest => Ascii.eqb c' c || String_has c rest
  end.

(** The answer of [authenticateToken] to a request without a token. *)
Definition tokenRequired {B} : Http.Outcome B :=
  Http.Respond
    {| Http.status := 401;
       Http.json := Http.Failure "Access token is required" |}.

(** What a later middleware sees of an outcome: the response, or the
    user and the body of the request passed on. *)
Definition outcomeView {B} (o : Http.Outcome B)
    : Http.Response + option Http.User * B :=
  match o with
  | Http.Respond res => inl res
  | Http.Next req => inr (Http.user req, Http.body req)
  end.

(** ** Stand-ins for the collaborators of the route, for examples *)

Module SampleHttp.
Local Open Scope string_scope.

Inductive Error : Type := JsonWebTokenError | TokenExpiredError | OtherError.

Definition manager : Http.User :=
  {| Http.role := "manager"; Http.isActive := true |}.

(** One token is good, one has expired, the others are malformed. *)
Definition jwt_verify (token : string) : Http.Attempt Error string :=
  if String.eqb token "good" then Http.Returned "user1"
  else if String.eqb token "old" then Http.Thrown TokenExpiredError
  else Http.Thrown JsonWebTokenError.

Definition User_findById (id : string)
    : Http.Attempt Error (option Http.User) :=
  if String.eqb id "user1" then Http.Returned (Some manager)
  else Http.Returned None.

(** In [jsonwebtoken] a [TokenExpiredError] is a [JsonWebTokenError]. *)
Definition isJsonWebTokenError (e : Error) : bool :=
  match e with
  | JsonWebTokenError | TokenExpiredError => true
  | OtherError => false
  end.
Definition isTokenExpiredError (e : Error) : bool :=
  match e with TokenExpiredError => true | _ => false end.

(** A validation that lets through the inputs within the rules of the
    schema. *)
Definition validate (b : SimulationInput) : string + SimulationInput :=
  if ((1 <=? availableDrivers b)%Z && (availableDrivers b <=? 50)%Z
      && RegExp.test timeRegex (startTime b)
      && Qeq_bool (inject_Z (Qfloor (maxHoursPerDay b))) (maxHoursPerDay b)
      && (1 <=? Qfloor (maxHoursPerDay b))%Z
      && (Qfloor (maxHoursPerDay b) <=? 24)%Z)%bool
  then inr b else inl "rejected".

Definition request (header : string) : Http.Request SimulationInput :=
  {| Http.authorization := Some header;
     Http.user := None;
     Http.body := Sample.input |}.
End SampleHttp.

(** * The arithmetic of the engine in double precision

    The second embedding of the assignment of the orders and of the
    results per order: here a JavaScript [number] is an IEEE 754 binary64
    value (the primitive floats of the kernel, which compute as the
    processor does), with its rounding, its [NaN] and its infinities, and
    the local time follows the rules of a time zone.  The properties that
    depend on the arithmetic are proved on this embedding. *)

Module Double.
Import PrimFloat SpecFloat FloatOps.
#[local] Set Warnings "-inexact-float".

Definition number : Type := float.

(** [x > y] on numbers; false when one of them is [NaN]. *)
Definition gtb (x y : number) : bool := (y <? x)%float.

(** The number of an integer, exact below 2^53 in absolute value. *)
Definition ofZ (n : Z) : number :=
  if n <? 0 then (- of_uint63 (Uint63Axioms.of_Z (- n)))%float
  else of_uint63 (Uint63Axioms.of_Z n).

(** The exact value of a finite number, as a rational; [None] for [NaN]
    and the infinities. *)
Definition toQ (x : number) : option Q :=
  match Prim2SF x with
  | S754_zero _ => Some 0%Q
  | S754_finite s m e =>
      let n := if s then Z.neg m else Z.pos m in
      Some (if 0 <=? e then inject_Z (n * 2 ^ e)
            else Qmake n (Pos.pow 2 (Z.to_pos (- e))))
  | S754_infinity _ | S754_nan => None
  end.

(** From 2^52 on every number is a whole number. *)
Definition integral (q : Q) : bool := Qle_bool 4503599627370496 (Qabs q).

(** [Math.round]: a number that is not finite, or is a whole number, is
    returned as it is; otherwise the nearest whole number, a tie going
    towards plus infinity, and a zero takes the sign of the argument. *)
Definition Math_round (x : number) : number :=
  match toQ x with
  | None => x
  | Some q =>
      if integral q then x
      else
        let n := Qfloor (q + (1 # 2)) in
        if n =? 0 then (if get_sign x then neg_zero else zero) else ofZ n
  end.

(** [Math.max(x, y)]: [NaN] if one of them is, and [+0] above [-0]. *)
Definition Math_max (x y : number) : number :=
  if is_nan x || is_nan y then nan
  else if (x <? y)%float then y
  else if (y <? x)%float then x
  else if get_sign x then y else x.

(** [ToIntegerOrInfinity]: [NaN] gives 0, an infinity itself, and a finite
    number loses its fraction. *)
Definition ToIntegerOrInfinity (x : number) : number :=
  if is_nan x then zero
  else
    match toQ x with
    | None => x
    | Some q =>
        if integral q then x
        else ofZ (if Qle_bool 0 q then Qfloor q else Qceiling q)
    end.

(** The whole number a finite number stands for. *)
Definition toZ (x : number) : option Z := q ← toQ x; Some (Qfloor q).

(** ** Dates: time values in a time zone *)

Module JSDate.

(** The time value of a [Date], in milliseconds since the epoch; [None]
    is the [NaN] of an Invalid Date. *)
Definition Date : Type := option Z.

Definition msPerSecond : Z := 1000.
Definition msPerMinute : Z := 60000.
Definition msPerHour : Z := 3600000.
Definition msPerDay : Z := 86400000.

Section Zone.
(** [LocalTZA t isUTC]: the offset of the local time zone, in
    milliseconds, at the time [t], which is a UTC time value when [isUTC]
    and a local one otherwise.  It changes with [t] where the zone has
    daylight saving. *)
Variable LocalTZA : Z → bool → Z.

Definition LocalTime (t : Z) : Z := t + LocalTZA t true.

(** [UTC(t)] of a local time that [MakeDate] computed. *)
Definition UTC (t : number) : option Z := z ← toZ t; Some (z - LocalTZA z false).

Definition Day (t : Z) : Z := t / msPerDay.
Definition HourFromTime (t : Z) : Z := (t / msPerHour) mod 24.
Definition MinFromTime (t : Z) : Z := (t / msPerMinute) mod 60.
Definition SecFromTime (t : Z) : Z := (t / msPerSecond) mod 60.
Definition msFromTime (t : Z) : Z := t mod msPerSecond.

Definition MakeTime (hour min sec ms : number) : number :=
  if is_finite hour && is_finite min && is_finite sec && is_finite ms then
    let h := ToIntegerOrInfinity hour in
    let m := ToIntegerOrInfinity min in
    let s := ToIntegerOrInfinity sec in
    let milli := ToIntegerOrInfinity ms in
    (((h * ofZ msPerHour + m * ofZ msPerMinute) + s * ofZ msPerSecond)
     + milli)%float
  else nan.

Definition MakeDate (day time : number) : number :=
  if is_finite day && is_finite time then
    let tv := (day * ofZ msPerDay + time)%float in
    if is_finite tv then tv else nan
  else nan.

Definition TimeClip (time : option Z) : Date :=
  z ← time; if Z.abs z <=? 8640000000000000 then Some z else None.

(** [d.getMinutes()] *)
Definition getMinutes (d : Date) : number :=
  match d with
  | Some t => ofZ (MinFromTime (LocalTime t))
  | None => nan
  end.

(** [d.setMinutes(min)] *)
Definition setMinutes (d : Date) (min : number) : Date :=
  match d with
  | Some t =>
      let t := LocalTime t in
      let date :=
        MakeDate (ofZ (Day t))
          (MakeTime (ofZ (HourFromTime t)) min (ofZ (SecFromTime t))
             (ofZ (msFromTime t))) in
      TimeClip (UTC date)
  | None => None
  end.
End Zone.

(** [a <= b] on two dates compares the time values; a comparison with
    [NaN] is false. *)
Definition le (a b : Date) : bool :=
  match a, b with
  | Some x, Some y => x <=? y
  | _, _ => false
  end.

End JSDate.

(** ** The entities *)

Module Driver.
Record t : Type := mk {
  _id : string;
  name : string;
  currentShiftHours : number;
  pastWeekHours : number
}.

(** virtual [isFatigued] *)
Definition isFatigued (d : t) : bool := gtb (currentShiftHours d) 8%float.
End Driver.

Module Route.
Record t : Type := mk {
  routeId : string;
  distance : number;
  trafficLevel : TrafficLevel;
  baseTime : number
}.

(** virtual [fuelCost] *)
Definition fuelCost (r : t) : number :=
  let baseCost := (distance r * 5)%float in
  let surcharge :=
    match trafficLevel r with
    | High => (distance r * 2)%float
    | _ => 0%float
    end in
  (baseCost + surcharge)%float.

Definition trafficMultipliers (l : TrafficLevel) : number :=
  match l with
  | Low => 1.0%float
  | Medium => 1.2%float
  | High => 1.5%float
  end.

(** virtual [adjustedTime] *)
Definition adjustedTime (r : t) : number :=
  Math_round (baseTime r * trafficMultipliers (trafficLevel r))%float.
End Route.

(** The deadline of an order is a valid [Date], kept as its time
    value. *)
Module Order.
Record t : Type := mk {
  orderId : string;
  value : number;
  assignedRoute : string;
  deliveryTimestamp : Z;
  isDelivered : bool
}.
End Order.

(** ** The assignment of the orders *)

Record DriverAssignment : Type := {
  driverId : string;
  driverName : string;
  assignedOrders : list string;
  totalHours : number;
  totalDistance : number;
  isFatigued : bool
}.

Record OrderResult : Type := {
  orderId : string;
  assignedDriver : string;
  routeId : string;
  orderValue : number;
  deliveryStatus : DeliveryStatus;
  fuelCost : number;
  penalty : number;
  bonus : number;
  profit : number
}.

(** [new Map(routes.map(route => [route.routeId, route]))] *)
Definition routeMapOf (routes : list Route.t) : gmap string Route.t :=
  newMap (map (λ route, (Route.routeId route, route)) routes).

Definition canDriverHandleOrder
    (assignment : DriverAssignment) (route : Route.t)
    (maxHoursPerDay : number) (startTime : JSDate.Date) : bool :=
  let additionalHours := (Route.adjustedTime route / 60)%float in
  if gtb (totalHours assignment + additionalHours)%float maxHoursPerDay
  then false
  else true.

Definition calculateDriverScore
    (assignment : DriverAssignment) (route : Route.t) : number :=
  let score := 100%float in
  let score := if isFatigued assignment then (score - 30)%float else score in
  let score :=
    (score - ofZ (Z.of_nat (length (assignedOrders assignment))) * 5)%float in
  let score := (score - totalDistance assignment * 0.1)%float in
  Math_max 0%float score.

(** The inner loop of [assignOrdersToDrivers]: [best] is the pair of
    [bestDriver] (the index of the aliased assignment) and [bestScore],
    [i] the index of the head of [assignments]. *)
Fixpoint findBestDriver
    (assignments : list DriverAssignment) (i : nat) (route : Route.t)
    (maxHoursPerDay : number) (startTime : JSDate.Date)
    (best : option nat * number) : option nat * number :=
  match assignments with
  | [] => best
  | assignment :: rest =>
      let canHandle :=
        canDriverHandleOrder assignment route maxHoursPerDay startTime in
      let best :=
        if canHandle then
          let score := calculateDriverScore assignment route in
          if gtb score best.2 then (Some i, score) else best
        else best in
      findBestDriver rest (S i) route maxHoursPerDay startTime best
  end.

(** The three updates made through [bestDriver]. *)
Definition assignTo (order : Order.t) (route : Route.t)
    (bestDriver : DriverAssignment) : DriverAssignment :=
  {| driverId := driverId bestDriver;
     driverName := driverName bestDriver;
     assignedOrders := assignedOrders bestDriver ++ [Order.orderId order];
     totalHours :=
       (totalHours bestDriver + Route.adjustedTime route / 60)%float;
     totalDistance := (totalDistance bestDriver + Route.distance route)%float;
     isFatigued := isFatigued bestDriver |}.

(** One iteration of the outer loop. *)
Definition assignOrder
    (routeMap : gmap string Route.t) (maxHoursPerDay : number)
    (startTime : JSDate.Date)
    (assignments : list DriverAssignment) (order : Order.t)
    : list DriverAssignment :=
  match routeMap !! Order.assignedRoute order with
  | None => assignments
  | Some route =>
      let best :=
        findBestDriver assignments 0%nat route maxHoursPerDay startTime
          (None, (-1)%float) in
      match best.1 with
      | Some i => alter (assignTo order route) i assignments
      | None => assignments
      end
  end.

Definition initialAssignment (driver : Driver.t) : DriverAssignment :=
  {| driverId := Driver._id driver;
     driverName := Driver.name driver;
     assignedOrders := [];
     totalHours := 0%float;
     totalDistance := 0%float;
     isFatigued := gtb (Driver.currentShiftHours driver) 8%float |}.

(** The comparison of the sort: the difference of the two time values,
    of which [sort] reads the sign. *)
Definition compareDeadline (a b : Order.t) : Z :=
  Order.deliveryTimestamp a - Order.deliveryTimestamp b.

Definition assignOrdersToDrivers
    (drivers : list Driver.t) (orders : list Order.t) (routes : list Route.t)
    (startTime : JSDate.Date) (maxHoursPerDay : number)
    : list DriverAssignment :=
  let assignments := map initialAssignment drivers in
  let sortedOrders := Array_sort compareDeadline orders in
  let routeMap := routeMapOf routes in
  fold_left (assignOrder routeMap maxHoursPerDay startTime)
    sortedOrders assignments.

(** ** The results per order *)

Definition calculateDeliveryTime (LocalTZA : Z → bool → Z)
    (startTime : JSDate.Date) (route : Route.t) (isFatigued : bool)
    : JSDate.Date :=
  let adjustedTime := Route.adjustedTime route in
  let adjustedTime :=
    if isFatigued then (adjustedTime * 1.3)%float else adjustedTime in
  let deliveryTime := startTime in
  JSDate.setMinutes LocalTZA deliveryTime
    (JSDate.getMinutes LocalTZA deliveryTime + adjustedTime)%float.

(** The callback of [orders.map] in [calculateOrderResults]. *)
Definition orderResult (LocalTZA : Z → bool → Z)
    (routeMap : gmap string Route.t)
    (driverAssignments : list DriverAssignment) (startTime : JSDate.Date)
    (order : Order.t) : Result OrderResult :=
  match routeMap !! Order.assignedRoute order with
  | None =>
      Throw ("Route " +:+ Order.assignedRoute order +:+ " not found")
  | Some route =>
      let assignedDriver :=
        List.find (λ d, includes (assignedOrders d) (Order.orderId order))
          driverAssignments in
      let deliveryTime :=
        calculateDeliveryTime LocalTZA startTime route
          (from_option isFatigued false assignedDriver) in
      let expectedDelivery := Some (Order.deliveryTimestamp order) in
      let isOnTime := JSDate.le deliveryTime expectedDelivery in
      let fuelCost := Route.fuelCost route in
      let penalty := if isOnTime then 0%float else 50%float in
      let bonus :=
        if gtb (Order.value order) 1000%float && isOnTime
        then (Order.value order * 0.1)%float else 0%float in
      let profit := (Order.value order + bonus - penalty - fuelCost)%float in
      Ok {| orderId := Order.orderId order;
            assignedDriver :=
              orElse (from_option driverName EmptyString assignedDriver)
                "Unassigned";
            routeId := Order.assignedRoute order;
            orderValue := Order.value order;
            deliveryStatus := if isOnTime then OnTime else Late;
            fuelCost := fuelCost;
            penalty := penalty;
            bonus := bonus;
            profit := profit |}
  end.

Definition calculateOrderResults (LocalTZA : Z → bool → Z)
    (orders : list Order.t) (routes : list Route.t)
    (driverAssignments : list DriverAssignment) (startTime : JSDate.Date)
    : Result (list OrderResult) :=
  let routeMap := routeMapOf routes in
  mapM (orderResult LocalTZA routeMap driverAssignments startTime) orders.

(** ** Notions used to state the properties *)

Definition deadlineLe (a b : Order.t) : Prop :=
  Order.deliveryTimestamp a ≤ Order.deliveryTimestamp b.

Definition hasDeadline (d : Z) (o : Order.t) : bool :=
  Order.deliveryTimestamp o =? d.

(** The order an id stands for, and its route. *)
Definition orderOfId (orders : list Order.t) (id : string) : option Order.t :=
  List.find (λ o, bool_decide (Order.orderId o = id)) orders.

Definition routeOfOrderId (routes : list Route.t) (orders : list Order.t)
    (id : string) : option Route.t :=
  orderOfId orders id ≫= λ o, routeMapOf routes !! Order.assignedRoute o.

(** The hours of a list of order ids as the loop adds them up: one
    rounded addition of [adjustedTime / 60] after the other, from 0, in
    the order of the list; and the distance likewise. *)
Definition runningHours (routes : list Route.t) (orders : list Order.t)
    (ids : list string) : number :=
  fold_left
    (λ sum id,
       match routeOfOrderId routes orders id with
       | Some route => (sum + Route.adjustedTime route / 60)%float
       | None => sum
       end)
    ids 0%float.

Definition runningDistance (routes : list Route.t) (orders : list Order.t)
    (ids : list string) : number :=
  fold_left
    (λ sum id,
       match routeOfOrderId routes orders id with
       | Some route => (sum + Route.distance route)%float
       | None => sum
       end)
    ids 0%float.


(** The score as the code computes it, in one expression: the
    subtractions are made from left to right, each one rounded. *)
Definition scoreFormula (a : DriverAssignment) : number :=
  Math_max 0%float
    (100 - (if isFatigued a then 30 else 0)
     - ofZ (Z.of_nat (length (assignedOrders a))) * 5
     - totalDistance a * 0.1)%float.

(** The same score in exact arithmetic, when the distance is finite. *)
Definition exactScore (a : DriverAssignment) : option Q :=
  distance ← toQ (totalDistance a);
  Some (Qmax 0
          (100 - (if isFatigued a then 30 else 0)
           - 5 * inject_Z (Z.of_nat (length (assignedOrders a)))
           - (1 # 10) * distance))%Q.

(** The driver at index [j] is the one the loop picks: it can take the
    order and its score is a number; no driver that can take the order has
    a higher score, and none before it has a score as high. *)
Definition chosenDriver (route : Route.t) (maxHours : number)
    (st : JSDate.Date) (assignments : list DriverAssignment) (j : nat)
    : Prop :=
  ∃ a, assignments !! j = Some a
    ∧ canDriverHandleOrder a route maxHours st = true
    ∧ is_nan (calculateDriverScore a route) = false
    ∧ ∀ k a', assignments !! k = Some a' →
        canDriverHandleOrder a' route maxHours st = true →
        (calculateDriverScore a route <? calculateDriverScore a' route)%float
        = false
        ∧ ((k < j)%nat →
           (calculateDriverScore a route <=? calculateDriverScore a' route)%float
           = false).

(** What [bestDriver] and [bestScore] hold once the drivers [seen] have
    been scanned. *)
Definition bestOf (route : Route.t) (maxHours : number) (st : JSDate.Date)
    (seen : list DriverAssignment) (best : option nat * number) : Prop :=
  match best.1 with
  | None =>
      best.2 = (-1)%float
      ∧ ∀ k a, seen !! k = Some a →
          canDriverHandleOrder a route maxHours st = true →
          is_nan (calculateDriverScore a route) = true
  | Some j =>
      chosenDriver route maxHours st seen j
      ∧ ∃ a, seen !! j = Some a ∧ best.2 = calculateDriverScore a route
  end.

(** ** Sample data *)

Module Sample.
Local Open Scope string_scope.

(** A zone without offset: UTC. *)
Definition utc (t : Z) (isUTC : bool) : Z := 0.

Definition rested (name : string) : Driver.t :=
  Driver.mk name name 6%float 35%float.
Definition tired (name : string) : Driver.t :=
  Driver.mk name name 9%float 40%float.

(** The first test of the suite: distance 25, Medium, 45 minutes, and an
    order of value 1500 due at 2024-01-15T12:00:00Z, a day of 10 hours
    that starts at 2024-01-15T08:00:00Z. *)
Definition routeR001 : Route.t := Route.mk "R001" 25%float Medium 45%float.
Definition orderO001 : Order.t :=
  Order.mk "O001" 1500%float "R001" 1705320000000 false.
Definition start : JSDate.Date := Some 1705305600000.
Definition assignment : DriverAssignment :=
  {| driverId := "driver1";
     driverName := "driver1";
     assignedOrders := ["O001"];
     totalHours := 0.9%float;
     totalDistance := 25%float;
     isFatigued := false |}.
Definition result : OrderResult :=
  {| orderId := "O001";
     assignedDriver := "driver1";
     routeId := "R001";
     orderValue := 1500%float;
     deliveryStatus := OnTime;
     fuelCost := 125%float;
     penalty := 0%float;
     bonus := 150%float;
     profit := 1525%float |}.

(** The same order with a value of 1001. *)
Definition order1001 : Order.t :=
  Order.mk "O001" 1001%float "R001" 1705320000000 false.


(** Four orders on routes of 164, 57, 57 and 5 km for two tired
    drivers. *)
Definition route (id : string) (distance : number) : Route.t :=
  Route.mk id distance Low 10%float.
Definition order (id routeId : string) (deadline : Z) : Order.t :=
  Order.mk id 100%float routeId deadline false.
Definition fourRoutes : list Route.t :=
  [route "R0" 164%float; route "R1" 57%float; route "R2" 57%float;
   route "R3" 5%float].
Definition orderP3 : Order.t := order "P3" "R3" 1705330800000.
Definition threeOrders : list Order.t :=
  [order "P0" "R0" 1705320000000; order "P1" "R1" 1705323600000;
   order "P2" "R2" 1705327200000].

(** New York in the autumn of 2024: four hours behind UTC until
    2024-11-03T06:00:00Z, when the clocks go back from 2:00 to 1:00, and
    five hours behind from then on; a local time that occurs twice is
    read as the earlier of the two. *)
Definition newYork (t : Z) (isUTC : bool) : Z :=
  if isUTC then
    if (t <? 1730613600000)%Z then (-14400000)%Z else (-18000000)%Z
  else
    if (t <? 1730613600000 - 14400000)%Z then (-14400000)%Z
    else (-18000000)%Z.

(** Distance 50, High, 60 minutes: adjusted time 90. *)
Definition longRoute : Route.t := Route.mk "R001" 50%float High 60%float.
End Sample.

End Double.

(** * Properties *)

(** ** Numbers *)

Lemma Qgtb_true x y : Qgtb x y = true ↔ (y < x)%Q.
Proof.
  unfold Qgtb. rewrite negb_true_iff, <- not_true_iff_false, Qle_bool_iff.
  split; [apply Qnot_le_lt | apply Qlt_not_le].
Qed.

Lemma Qgtb_false x y : Qgtb x y = false ↔ (x <= y)%Q.
Proof. unfold Qgtb. rewrite negb_false_iff. apply Qle_bool_iff. Qed.

(** ** [new Map] *)

Section NewMap.
Context {V : Type}.
Implicit Types (entries : list (string * V)) (m : gmap string V).

Lemma fold_insert_lookup_None entries m k :
  fold_left (λ m kv, <[kv.1 := kv.2]> m) entries m !! k = None
  ↔ m !! k = None ∧ k ∉ entries.*1.
Proof.
  revert m. induction entries as [|[k' v] entries IH]; intros m; simpl.
  - split; [intros H; split; [done | apply not_elem_of_nil] | tauto].
  - rewrite IH, lookup_insert_None, not_elem_of_cons. simpl.
    split; [intros [[? ?] ?] | intros [? [? ?]]]; auto.
Qed.

Lemma newMap_lookup_None entries k :
  newMap entries !! k = None ↔ k ∉ entries.*1.
Proof.
  unfold newMap. rewrite fold_insert_lookup_None, lookup_empty. tauto.
Qed.

End NewMap.

Lemma routeMapOf_None routes k :
  routeMapOf routes !! k = None ↔ k ∉ map Route.routeId routes.
Proof.
  unfold routeMapOf. rewrite newMap_lookup_None.
  by rewrite <- list_fmap_compose.
Qed.

(** ** [Array.prototype.sort] *)

Section SortFacts.
Context {A : Type} (compare : A → A → Z).

Lemma sort_insert_Permutation x l :
  sort_insert compare x l ≡ₚ x :: l.
Proof.
  induction l as [|y l IH]; simpl; [done|].
  destruct (compare x y <=? 0); [done|].
  rewrite IH. apply Permutation_swap.
Qed.

Lemma Array_sort_Permutation l : Array_sort compare l ≡ₚ l.
Proof.
  induction l as [|x l IH]; simpl; [done|].
  fold (Array_sort compare l).
  by rewrite sort_insert_Permutation, IH.
Qed.

Lemma Array_sort_elem_of x l : x ∈ Array_sort compare l ↔ x ∈ l.
Proof. by rewrite Array_sort_Permutation. Qed.
End SortFacts.

(** ** The choice of a driver *)

Lemma calculateDriverScore_nonneg a route :
  (0 <= calculateDriverScore a route)%Q.
Proof. unfold calculateDriverScore. apply Q.le_max_l. Qed.

Section FindBest.
Variables (route : Route.t) (maxHours : Q) (st : JSDate.Date).

Lemma bestOf_step seen a best :
  bestOf route maxHours st seen best →
  bestOf route maxHours st (seen ++ [a])
    (if canDriverHandleOrder a route maxHours st then
       if Qgtb (calculateDriverScore a route) best.2
       then (Some (length seen), calculateDriverScore a route) else best
     else best).
Proof.
  intros Hbest. unfold bestOf in *. cbn zeta in *.
  assert (Hlast : ∀ k a', (seen ++ [a]) !! k = Some a' →
            seen !! k = Some a' ∨ (k = length seen ∧ a' = a)).
  { intros k a' Hk. destruct (decide (k < length seen)%nat) as [Hlt | Hge].
    - left. by rewrite lookup_app_l in Hk.
    - right. rewrite lookup_app_r in Hk by lia.
      destruct (k - length seen)%nat as [|n] eqn:En; simpl in Hk; [|done].
      split; [lia | congruence]. }
  destruct (canDriverHandleOrder a _ _ _) eqn:Hcan; [destruct (Qgtb _ _) eqn:Hgt|].
  - (* [a] beats the best so far *)
    apply Qgtb_true in Hgt. unfold bestOf; simpl.
    exists a. split; [by rewrite list_lookup_middle|].
    do 2 (split; [done|]).
    intros k a' Hk Hcan'. apply Hlast in Hk as [Hk | [-> ->]].
    + unfold bestOf in Hbest. destruct (best.1) as [j|].
      * destruct Hbest as (b & _ & _ & Hb & Hall).
        destruct (Hall k a' Hk Hcan') as [Hle _].
        rewrite Hb in Hgt. split; [|intros _]; lra.
      * destruct Hbest as [_ Hnone].
        rewrite (Hnone k a' Hk) in Hcan'. done.
    + split; [lra | lia].
  - (* [a] does not beat it *)
    apply Qgtb_false in Hgt. unfold bestOf in *.
    destruct (best.1) as [j|].
    + destruct Hbest as (b & Hj & Hcanb & Hb & Hall).
      exists b. split; [by apply lookup_app_l_Some|].
      do 2 (split; [done|]).
      intros k a' Hk Hcan'. apply Hlast in Hk as [Hk | [-> ->]]; [by apply Hall|].
      apply lookup_lt_Some in Hj. rewrite Hb in Hgt. split; [done | lia].
    + destruct Hbest as [Hb _].
      pose proof (calculateDriverScore_nonneg a route) as Hnn.
      rewrite Hb in Hgt. lra.
  - (* [a] cannot take the order *)
    unfold bestOf in *. destruct (best.1) as [j|].
    + destruct Hbest as (b & Hj & Hcanb & Hb & Hall).
      exists b. split; [by apply lookup_app_l_Some|].
      do 2 (split; [done|]).
      intros k a' Hk Hcan'. apply Hlast in Hk as [Hk | [-> ->]]; [by apply Hall|].
      congruence.
    + destruct Hbest as [Hb Hnone]. split; [done|].
      intros k a' Hk. apply Hlast in Hk as [Hk | [-> ->]]; [by eapply Hnone | done].
Qed.

Lemma findBestDriver_bestOf rest seen best :
  bestOf route maxHours st seen best →
  bestOf route maxHours st (seen ++ rest)
    (findBestDriver rest (length seen) route maxHours st best).
Proof.
  revert seen best. induction rest as [|a rest IH]; intros seen best Hbest.
  - by rewrite app_nil_r.
  - cbn [findBestDriver]. rewrite cons_middle, app_assoc.
    replace (S (length seen)) with (length (seen ++ [a]))
      by (rewrite length_app; simpl; lia).
    apply IH. by apply bestOf_step.
Qed.

Lemma findBestDriver_spec assignments :
  bestOf route maxHours st assignments
    (findBestDriver assignments 0%nat route maxHours st (None, (-1)%Q)).
Proof.
  apply (findBestDriver_bestOf assignments []).
  split; [done|]. intros k a Hk. done.
Qed.
End FindBest.

(** ** Invariants of the assignment loop *)

Section AssignLoop.
Variables (routeMap : gmap string Route.t) (maxHours : Q) (st : JSDate.Date).

(** An iteration leaves the assignments alone, or applies [assignTo] to
    one driver who can take the order. *)
Lemma assignOrder_cases assignments order :
  assignOrder routeMap maxHours st assignments order = assignments
  ∨ ∃ route j a,
      routeMap !! Order.assignedRoute order = Some route
      ∧ assignments !! j = Some a
      ∧ canDriverHandleOrder a route maxHours st = true
      ∧ assignOrder routeMap maxHours st assignments order
        = alter (assignTo order route) j assignments.
Proof.
  unfold assignOrder.
  destruct (routeMap !! Order.assignedRoute order) as [route|]; [|by left].
  pose proof (findBestDriver_spec route maxHours st assignments) as Hbest.
  unfold bestOf in Hbest. cbn zeta.
  destruct (findBestDriver _ _ _ _ _ _).1 as [j|]; [|by left].
  destruct Hbest as (a & Hj & Hcan & _). right. by exists route, j, a.
Qed.

(** An order whose route id is not in the map is skipped. *)
Lemma assignOrder_unknown_route assignments order :
  routeMap !! Order.assignedRoute order = None →
  assignOrder routeMap maxHours st assignments order = assignments.
Proof. intros Hr. unfold assignOrder. by rewrite Hr. Qed.

(** A property of single assignments that [assignTo] keeps for a driver
    who can take the order is kept by the loop. *)
Lemma assignOrder_Forall (P : DriverAssignment → Prop) assignments order :
  (∀ route a,
     routeMap !! Order.assignedRoute order = Some route →
     canDriverHandleOrder a route maxHours st = true →
     P a → P (assignTo order route a)) →
  Forall P assignments →
  Forall P (assignOrder routeMap maxHours st assignments order).
Proof.
  intros Hstep HP.
  destruct (assignOrder_cases assignments order)
    as [-> | (route & j & a & Hr & Hj & Hcan & ->)]; [done|].
  apply Forall_alter; [done|]. intros x Hx. rewrite Hj in Hx.
  injection Hx as <-. by apply Hstep.
Qed.

Lemma assignLoop_Forall (P : DriverAssignment → Prop) orders assignments :
  (∀ order route a,
     order ∈ orders →
     routeMap !! Order.assignedRoute order = Some route →
     canDriverHandleOrder a route maxHours st = true →
     P a → P (assignTo order route a)) →
  Forall P assignments →
  Forall P (fold_left (assignOrder routeMap maxHours st) orders assignments).
Proof.
  revert assignments.
  induction orders as [|order orders IH]; intros assignments Hstep HP; [done|].
  simpl. apply IH.
  - intros o route a Ho. apply Hstep. by right.
  - apply assignOrder_Forall; [|done].
    intros route a. apply Hstep. by left.
Qed.

Lemma allAssigned_alter order route assignments j a :
  assignments !! j = Some a →
  allAssigned (alter (assignTo order route) j assignments)
  ≡ₚ Order.orderId order :: allAssigned assignments.
Proof.
  unfold allAssigned. revert j.
  induction assignments as [|b assignments IH]; intros [|j] Hj; try done.
  - injection Hj as ->. simpl.
    rewrite <- app_assoc. simpl.
    by rewrite <- Permutation_middle.
  - simpl in *. rewrite (IH j Hj).
    by rewrite <- Permutation_middle.
Qed.

Lemma assignOrder_allAssigned assignments order :
  allAssigned (assignOrder routeMap maxHours st assignments order)
  ≡ₚ allAssigned assignments
  ∨ allAssigned (assignOrder routeMap maxHours st assignments order)
    ≡ₚ Order.orderId order :: allAssigned assignments.
Proof.
  destruct (assignOrder_cases assignments order)
    as [-> | (route & j & a & Hr & Hj & Hcan & ->)]; [by left|].
  right. by eapply allAssigned_alter.
Qed.

(** The ids assigned so far are ids of orders processed so far, and none
    occurs twice, as long as the orders have distinct ids. *)
Lemma assignLoop_NoDup todo past assignments :
  NoDup (map Order.orderId (past ++ todo)) →
  NoDup (allAssigned assignments) →
  allAssigned assignments ⊆ map Order.orderId past →
  NoDup (allAssigned
           (fold_left (assignOrder routeMap maxHours st) todo assignments)).
Proof.
  revert past assignments.
  induction todo as [|order todo IH]; intros past assignments Hids Hnd Hsub;
    [done|].
  simpl. apply (IH (past ++ [order])).
  - by rewrite <- app_assoc.
  - destruct (assignOrder_allAssigned assignments order) as [-> | ->]; [done|].
    apply NoDup_cons. split; [|done].
    intros Hin. apply Hsub in Hin.
    rewrite map_app in Hids. apply NoDup_app in Hids as (_ & Hdisj & _).
    apply (Hdisj _ Hin). simpl. left.
  - rewrite map_app. simpl.
    destruct (assignOrder_allAssigned assignments order) as [-> | ->].
    + intros id Hid. apply elem_of_app. left. by apply Hsub.
    + intros id Hid. apply elem_of_app.
      apply elem_of_cons in Hid as [-> | Hid]; [right; left | left; by apply Hsub].
Qed.
End AssignLoop.

(** ** No order is assigned twice *)

Lemma assignOrdersToDrivers_NoDup drivers orders routes st maxHours :
  NoDup (map Order.orderId orders) →
  NoDup (allAssigned
           (assignOrdersToDrivers drivers orders routes st maxHours)).
Proof.
  intros Hnd. unfold assignOrdersToDrivers.
  apply (assignLoop_NoDup _ _ _ _ []).
  - simpl.
    assert (Hp : map Order.orderId (Array_sort compareDeadline orders)
                 ≡ₚ map Order.orderId orders)
      by apply Permutation_map, Array_sort_Permutation.
    by rewrite Hp.
  - unfold allAssigned. induction drivers; simpl; [constructor | done].
  - unfold allAssigned. induction drivers; simpl; [done | done].
Qed.

(** C5. When the orders have distinct ids, the lists of assigned order
    ids of the assignments returned by [assignOrdersToDrivers], put end
    to end, have no id twice: an id is in at most one list, and at most
    once there. *)
Theorem assigned_at_most_once drivers orders routes st maxHours :
  NoDup (map Order.orderId orders) →
  NoDup (allAssigned
           (assignOrdersToDrivers drivers orders routes st maxHours)).
Proof. apply assignOrdersToDrivers_NoDup. Qed.

Lemma assigned_at_most_once_witness :
  NoDup (allAssigned
           (assignOrdersToDrivers [Sample.driver1; Sample.fatiguedDriver]
              [Sample.orderO001; Sample.strayOrder] [Sample.routeR001]
              None 10)).
Proof.
  apply (assigned_at_most_once [Sample.driver1; Sample.fatiguedDriver]
           [Sample.orderO001; Sample.strayOrder] [Sample.routeR001] None 10).
  simpl. apply NoDup_cons. split; [|apply NoDup_singleton].
  intros H%list_elem_of_singleton. discriminate.
Defined.

(** ** Computations that may throw *)

Section MapM.
Context {A B : Type} (f : A → Result B).

Lemma mapM_Ok xs ys :
  mapM f xs = Ok ys ↔ Forall2 (λ x y, f x = Ok y) xs ys.
Proof.
  revert ys. induction xs as [|x xs IH]; intros ys; simpl.
  - split.
    + intros [= <-]. constructor.
    + intros H. by inversion H.
  - unfold mbind, mret, Result_bind, Result_ret in *.
    destruct (f x) as [y|m] eqn:Hx.
    + destruct (mapM f xs) as [ys'|m'] eqn:Hxs.
      * split.
        -- intros [= <-]. constructor; [done|]. by apply IH.
        -- intros H. inversion H as [|? y' ? ys'' Hy Hys]; subst.
           apply IH in Hys. congruence.
      * split; [done|].
        intros H. inversion H as [|? y' ? ys'' Hy Hys]; subst.
        apply IH in Hys. done.
    + split; [done|]. intros H. inversion H; subst. congruence.
Qed.

Lemma mapM_Throw xs x message :
  x ∈ xs → f x = Throw message → ∃ message', mapM f xs = Throw message'.
Proof.
  intros Hx Hf. induction xs as [|y xs IH]; [by apply elem_of_nil in Hx|].
  simpl. unfold mbind, Result_bind in *.
  apply elem_of_cons in Hx as [<- | Hx].
  - rewrite Hf. by eexists.
  - destruct (f y); [|by eexists].
    destruct (IH Hx) as [m' ->]. by eexists.
Qed.

Lemma mapM_total xs :
  (∀ x, x ∈ xs → ∃ y, f x = Ok y) → ∃ ys, mapM f xs = Ok ys.
Proof.
  induction xs as [|x xs IH]; intros Hall; simpl; [by eexists|].
  unfold mbind, mret, Result_bind, Result_ret in *.
  destruct (Hall x) as [y ->]; [left|].
  destruct IH as [ys ->]; [intros z Hz; apply Hall; by right|].
  by eexists.
Qed.
End MapM.

(** ** Results per order *)

Lemma orderResult_Ok tz routeMap assignments st order r :
  orderResult tz routeMap assignments st order = Ok r →
  ∃ route,
    routeMap !! Order.assignedRoute order = Some route
    ∧ let assignedDriverOf :=
        List.find (λ d, includes (assignedOrders d) (Order.orderId order))
          assignments in
      let isOnTime :=
        JSDate.le
          (calculateDeliveryTime tz st route
             (from_option isFatigued false assignedDriverOf))
          (Some (Order.deliveryTimestamp order)) in
      orderId r = Order.orderId order
      ∧ routeId r = Order.assignedRoute order
      ∧ orderValue r = Order.value order
      ∧ assignedDriver r
        = orElse (from_option driverName EmptyString assignedDriverOf)
            "Unassigned"
      ∧ deliveryStatus r = (if isOnTime then OnTime else Late)
      ∧ fuelCost r = Route.fuelCost route
      ∧ penalty r = (if isOnTime then 0 else 50)%Q
      ∧ bonus r
        = (if Qgtb (Order.value order) 1000 && isOnTime
           then Order.value order * (1 # 10) else 0)%Q
      ∧ profit r = (Order.value order + bonus r - penalty r - fuelCost r)%Q.
Proof.
  unfold orderResult.
  destruct (routeMap !! Order.assignedRoute order) as [route|]; [|done].
  intros [= <-]. exists route. by repeat split.
Qed.

(** Every order has a result as soon as every route id is known. *)
Lemma calculateOrderResults_total tz orders routes assignments st :
  (∀ o, o ∈ orders → Order.assignedRoute o ∈ map Route.routeId routes) →
  ∃ rs, calculateOrderResults tz orders routes assignments st = Ok rs.
Proof.
  intros Hknown. unfold calculateOrderResults. apply mapM_total.
  intros o Ho. unfold orderResult.
  destruct (routeMapOf routes !! Order.assignedRoute o) eqn:Hr; [by eexists|].
  apply routeMapOf_None in Hr. destruct Hr. by apply Hknown.
Qed.

(** ** Runs of the simulation *)

Lemma fetchOrders_sublist w : fetchOrders w `sublist_of` Order_collection w.
Proof.
  unfold fetchOrders. induction (Order_collection w) as [|o l IH]; simpl.
  - constructor.
  - destruct (negb (Order.isDelivered o)); by constructor.
Qed.

Lemma fetchOrders_NoDup w :
  NoDup (map Order.orderId (Order_collection w)) →
  NoDup (map Order.orderId (fetchOrders w)).
Proof.
  intros Hnd. eapply sublist_NoDup; [exact Hnd|].
  apply (fmap_sublist Order.orderId), fetchOrders_sublist.
Qed.

Lemma fetchDrivers_elem_of w n d :
  d ∈ fetchDrivers w n → d ∈ Driver_collection w.
Proof.
  unfold fetchDrivers. intros (i & Hi & _)%elem_of_take.
  by eapply list_elem_of_lookup_2.
Qed.

(** A run that returns went through every stage. *)
Lemma runSimulation_Ok w input result :
  runSimulation w input = Ok result →
  let drivers := fetchDrivers w (availableDrivers input) in
  let st := parseStartTime w (startTime input) in
  validateSimulationInput input = Ok ()
  ∧ drivers ≠ []
  ∧ fetchOrders w ≠ []
  ∧ driverAssignments result
    = assignOrdersToDrivers drivers (fetchOrders w) (fetchRoutes w) st
        (maxHoursPerDay input)
  ∧ calculateOrderResults (localTZA w) (fetchOrders w) (fetchRoutes w)
      (driverAssignments result) st
    = Ok (orderResults result)
  ∧ kpis result = calculateKPIs (orderResults result).
Proof.
  unfold runSimulation, simulate.
  destruct (validateSimulationInput input) as [[]|m]; simpl; [|done].
  case_bool_decide as Hd; [done|]. case_bool_decide as Ho; [done|].
  destruct (calculateOrderResults _ _ _ _ _) as [rs|m] eqn:Hrs; simpl; [|done].
  intros [= <-]. simpl. repeat split; try done.
  - intros Hnil. by rewrite Hnil in Hd.
  - intros Hnil. by rewrite Hnil in Ho.
Qed.

Lemma calculateOrderResults_unknown_route tz orders routes assignments st o :
  o ∈ orders →
  Order.assignedRoute o ∉ map Route.routeId routes →
  ∃ message,
    calculateOrderResults tz orders routes assignments st = Throw message.
Proof.
  intros Ho Hr. unfold calculateOrderResults.
  eapply mapM_Throw; [exact Ho|].
  unfold orderResult. apply routeMapOf_None in Hr. by rewrite Hr.
Qed.

(** C4. A run throws, and so returns no result, when no driver is
    fetched, when no undelivered order is fetched, or when a fetched
    order names a route id that no fetched route has; such an order is
    skipped by the assignment loop, and makes [calculateOrderResults]
    throw. *)
Theorem notFound_aborts w input :
  (fetchDrivers w (availableDrivers input) = []
   ∨ fetchOrders w = []
   ∨ (∃ o, o ∈ fetchOrders w
           ∧ Order.assignedRoute o ∉ map Route.routeId (fetchRoutes w)) →
   ∃ message, runSimulation w input = Throw message)
  ∧ ∀ o, o ∈ fetchOrders w →
      Order.assignedRoute o ∉ map Route.routeId (fetchRoutes w) →
      (∀ maxHours st assignments,
         assignOrder (routeMapOf (fetchRoutes w)) maxHours st assignments o
         = assignments)
      ∧ ∀ st assignments, ∃ message,
          calculateOrderResults (localTZA w) (fetchOrders w) (fetchRoutes w)
            assignments st
          = Throw message.
Proof.
  split.
  - intros Hcases. unfold runSimulation, simulate.
    destruct (validateSimulationInput input) as [[]|m]; simpl; [|by eexists].
    destruct Hcases as [-> | [-> | (o & Ho & Hr)]].
    + simpl. by eexists.
    + case_bool_decide; by eexists.
    + case_bool_decide; [by eexists|]. case_bool_decide; [by eexists|].
      edestruct calculateOrderResults_unknown_route as [m ->]; [done..|].
      simpl. by eexists.
  - intros o Ho Hr. split.
    + intros maxHours st assignments.
      apply assignOrder_unknown_route. by apply routeMapOf_None.
    + intros st assignments.
      by eapply calculateOrderResults_unknown_route.
Qed.

Lemma notFound_aborts_witness :
  let w :=
    {| Driver_collection := [Sample.driver1];
       Route_collection := [Sample.routeR001];
       Order_collection := [Sample.orderO001; Sample.strayOrder];
       now := Sample.jan15;
       localTZA := 0 |} in
  ∃ message, runSimulation w Sample.input = Throw message.
Proof.
  intros w. apply (notFound_aborts w Sample.input).
  right. right. exists Sample.strayOrder. split.
  - vm_compute. right. left.
  - vm_compute. intros H%list_elem_of_singleton. discriminate.
Defined.

(** ** The driver named in a result *)

Lemma includes_true xs x : includes xs x = true ↔ x ∈ xs.
Proof. unfold includes. apply bool_decide_eq_true. Qed.

Lemma find_assigned_unique id assignments d :
  NoDup (allAssigned assignments) →
  d ∈ assignments → id ∈ assignedOrders d →
  List.find (λ d, includes (assignedOrders d) id) assignments = Some d.
Proof.
  unfold allAssigned.
  induction assignments as [|x assignments IH]; intros Hnd Hd Hid.
  - by apply elem_of_nil in Hd.
  - simpl in *. apply NoDup_app in Hnd as (_ & Hdisj & Hnd).
    destruct (includes (assignedOrders x) id) eqn:Hx.
    + apply includes_true in Hx.
      apply elem_of_cons in Hd as [-> | Hd]; [done|].
      destruct (Hdisj id Hx).
      apply list_elem_of_In, in_concat. exists (assignedOrders d).
      split; [by apply in_map, list_elem_of_In | by apply list_elem_of_In].
    + apply elem_of_cons in Hd as [-> | Hd]; [|by apply IH].
      apply includes_true in Hid. congruence.
Qed.

Lemma find_assigned_none id assignments :
  (∀ d, d ∈ assignments → id ∉ assignedOrders d) →
  List.find (λ d, includes (assignedOrders d) id) assignments = None.
Proof.
  induction assignments as [|x assignments IH]; intros Hall; [done|].
  simpl. destruct (includes (assignedOrders x) id) eqn:Hx.
  - apply includes_true in Hx. destruct (Hall x); [left | done].
  - apply IH. intros d Hd. apply Hall. by right.
Qed.

Lemma assignOrdersToDrivers_names drivers orders routes st maxHours :
  Forall (λ d, Driver.name d ≠ EmptyString) drivers →
  Forall (λ a, driverName a ≠ EmptyString)
    (assignOrdersToDrivers drivers orders routes st maxHours).
Proof.
  intros Hnames. unfold assignOrdersToDrivers. apply assignLoop_Forall.
  - by intros order route a _ _ _ Ha.
  - by apply Forall_fmap.
Qed.

Lemma orElse_nonempty s fallback : s ≠ EmptyString → orElse s fallback = s.
Proof. by destruct s. Qed.

(** C8, as the code has it. When the orders have distinct ids and the
    drivers have names, the [assignedDriver] field of the result of an
    order holds the name of the driver the order was assigned to, and
    the string "Unassigned" when no driver took the order. *)
Theorem assignedDriver_field w input result :
  NoDup (map Order.orderId (Order_collection w)) →
  Forall (λ d, Driver.name d ≠ EmptyString) (Driver_collection w) →
  runSimulation w input = Ok result →
  Forall2
    (λ order r,
       orderId r = Order.orderId order
       ∧ (∀ d, d ∈ driverAssignments result →
               Order.orderId order ∈ assignedOrders d →
               assignedDriver r = driverName d)
       ∧ ((∀ d, d ∈ driverAssignments result →
                Order.orderId order ∉ assignedOrders d) →
          assignedDriver r = "Unassigned"%string))
    (fetchOrders w) (orderResults result).
Proof.
  intros Hids Hnames Hrun.
  apply runSimulation_Ok in Hrun as (_ & _ & _ & Hasg & Hrs & _).
  cbn zeta in *.
  assert (Hnd : NoDup (allAssigned (driverAssignments result))).
  { rewrite Hasg. by apply assignOrdersToDrivers_NoDup, fetchOrders_NoDup. }
  assert (Hnm : Forall (λ a, driverName a ≠ EmptyString)
                  (driverAssignments result)).
  { rewrite Hasg. apply assignOrdersToDrivers_names.
    apply Forall_forall. intros d Hd.
    apply fetchDrivers_elem_of in Hd.
    by apply (proj1 (Forall_forall _ _) Hnames). }
  unfold calculateOrderResults in Hrs. apply mapM_Ok in Hrs.
  eapply Forall2_impl; [exact Hrs|]. intros order r Hr. simpl in Hr.
  apply orderResult_Ok in Hr as (route & _ & H). cbn zeta in H.
  destruct H as (Hid & _ & _ & Hdrv & _).
  split; [done|]. split.
  - intros d Hd Hin. rewrite Hdrv, (find_assigned_unique _ _ d) by done.
    simpl. apply orElse_nonempty.
    by apply (proj1 (Forall_forall _ _) Hnm).
  - intros Hnone. by rewrite Hdrv, find_assigned_none.
Qed.

Lemma assignedDriver_field_witness :
  Forall2
    (λ order r,
       orderId r = Order.orderId order
       ∧ (∀ d, d ∈ [Sample_assignment] →
               Order.orderId order ∈ assignedOrders d →
               assignedDriver r = driverName d)
       ∧ ((∀ d, d ∈ [Sample_assignment] →
                Order.orderId order ∉ assignedOrders d) →
          assignedDriver r = "Unassigned"%string))
    [Sample.orderO001] [Sample_orderResult].
Proof.
  apply (assignedDriver_field Sample.world Sample.input Sample_result).
  - apply NoDup_singleton.
  - repeat constructor. discriminate.
  - vm_compute. reflexivity.
Defined.

(** C8, as stated, fails: the field holds the driver's name, not the id,
    and the word for an order that no driver took has a capital. *)
Lemma assignedDriver_counterexample :
  ¬ (∀ w input result, runSimulation w input = Ok result →
       Forall
         (λ r, ∀ d, d ∈ driverAssignments result →
                    orderId r ∈ assignedOrders d →
                    assignedDriver r = driverId d)
         (orderResults result))
  ∧ ¬ (∀ w input result, runSimulation w input = Ok result →
         Forall
           (λ r, (∀ d, d ∈ driverAssignments result →
                       orderId r ∉ assignedOrders d) →
                 assignedDriver r = "unassigned"%string)
           (orderResults result)).
Proof.
  split; intros Hclaim.
  - pose proof (Hclaim Sample.world Sample.input) as H. revert H.
    set (run := runSimulation _ _). vm_compute in run. subst run.
    intros H. specialize (H _ eq_refl). simpl in H.
    apply Forall_cons_1 in H as [H _].
    specialize (H _ (list_elem_of_here _ _) (list_elem_of_here _ _)).
    discriminate.
  - pose proof (Hclaim Sample.lateWorld Sample.tightInput) as H. revert H.
    set (run := runSimulation _ _). vm_compute in run. subst run.
    intros H. specialize (H _ eq_refl). simpl in H.
    apply Forall_cons_1 in H as [H _].
    assert (assignedDriver
              {| orderId := "O001"; assignedDriver := "Unassigned";
                 routeId := "R001"; orderValue := 800;
                 deliveryStatus := Late; fuelCost := 350; penalty := 50;
                 bonus := 0; profit := 800 + 0 - 50 - 350 |}
            = "unassigned"%string) as Heq; [|discriminate].
    apply H. intros d Hd. apply list_elem_of_singleton in Hd as ->.
    apply not_elem_of_nil.
Qed.

(** ** Validation of the input *)

Lemma validateSimulationInput_Ok input :
  validateSimulationInput input = Ok ()
  ↔ 0 < availableDrivers input
    ∧ (0 < maxHoursPerDay input)%Q ∧ (maxHoursPerDay input <= 24)%Q
    ∧ RegExp.test timeRegex (startTime input) = true.
Proof.
  unfold validateSimulationInput.
  destruct (Z.leb_spec (availableDrivers input) 0) as [Ha | Ha].
  { split; [done | lia]. }
  destruct (Qle_bool (maxHoursPerDay input) 0) eqn:Hlo; simpl.
  { apply Qle_bool_iff in Hlo. split; [done|]. intros (_ & H & _). lra. }
  destruct (Qgtb (maxHoursPerDay input) 24) eqn:Hhi; simpl.
  { apply Qgtb_true in Hhi. split; [done|]. intros (_ & _ & H & _). lra. }
  apply Qgtb_false in Hhi.
  assert (0 < maxHoursPerDay input)%Q as Hpos.
  { apply Qnot_le_lt. intros Hle%Qle_bool_iff. congruence. }
  destruct (RegExp.test timeRegex (startTime input)); simpl.
  - split; [by repeat split | done].
  - split; [done|]. by intros (_ & _ & _ & H).
Qed.

Lemma validateSimulationInput_Throw input message :
  validateSimulationInput input = Throw message →
  message ∈ validationMessages.
Proof.
  unfold validateSimulationInput, validationMessages.
  destruct (availableDrivers input <=? 0); [intros [= <-]; left|].
  destruct (_ || _); [intros [= <-]; right; left|].
  destruct (negb _); [intros [= <-]; right; right; left | done].
Qed.

Lemma validateSimulationInput_drivers input :
  availableDrivers input ≤ 0 →
  validateSimulationInput input
  = Throw "Available drivers must be greater than 0".
Proof.
  intros Ha. unfold validateSimulationInput.
  by destruct (Z.leb_spec (availableDrivers input) 0); [|lia].
Qed.

Lemma calculateOrderResults_Throw tz orders routes assignments st message :
  calculateOrderResults tz orders routes assignments st = Throw message →
  ∃ id, message = ("Route " +:+ id +:+ " not found")%string.
Proof.
  unfold calculateOrderResults.
  induction orders as [|o orders IH]; simpl; [done|].
  unfold mbind, mret, Result_bind, Result_ret in *.
  unfold orderResult at 1.
  destruct (routeMapOf routes !! Order.assignedRoute o).
  - destruct (mapM _ orders); [done|]. intros [= <-]. by apply IH.
  - intros [= <-]. by eexists.
Qed.

(** Past validation, a run throws none of the validation messages. *)
Lemma simulate_Throw_valid w input message :
  validateSimulationInput input = Ok () →
  simulate w input = Throw message →
  message ∉ validationMessages.
Proof.
  unfold simulate. intros ->. simpl.
  assert (∀ m : string, m ∈ validationMessages →
            m = "Available drivers must be greater than 0"%string
            ∨ m = "Max hours per day must be between 1 and 24"%string
            ∨ m = "Start time must be in HH:MM format"%string) as Hcases.
  { intros m Hm. unfold validationMessages in Hm.
    repeat (apply elem_of_cons in Hm as [-> | Hm]; [tauto|]).
    by apply elem_of_nil in Hm. }
  case_bool_decide.
  { intros [= <-] [Hm | [Hm | Hm]]%Hcases; discriminate. }
  case_bool_decide.
  { intros [= <-] [Hm | [Hm | Hm]]%Hcases; discriminate. }
  destruct (calculateOrderResults _ _ _ _ _) as [rs|m] eqn:Hrs; simpl; [done|].
  intros [= <-]. apply calculateOrderResults_Throw in Hrs as [id ->].
  intros [Hm | [Hm | Hm]]%Hcases; discriminate.
Qed.

Lemma integer_hours_range (x : Q) (n : Z) :
  x == inject_Z n →
  (x <= 0)%Q ∨ (24 < x)%Q ↔ ¬ ((1 <= x)%Q ∧ (x <= 24)%Q).
Proof.
  intros Hx. rewrite Hx.
  change 0%Q with (inject_Z 0). change 1%Q with (inject_Z 1).
  change 24%Q with (inject_Z 24).
  rewrite <- !Zle_Qle, <- Zlt_Qlt. lia.
Qed.

(** C9, as the code has it. For a whole number of hours per day, a run
    throws one of the validation messages, after the prefix
    "Simulation failed: ", exactly when [availableDrivers <= 0], or
    [maxHoursPerDay] is outside [1, 24], or [startTime] does not match
    [timeRegex]; with no available driver the caller receives
    "Simulation failed: Available drivers must be greater than 0". *)
Theorem validation_errors w input :
  (∃ n : Z, maxHoursPerDay input == inject_Z n) →
  (availableDrivers input ≤ 0
   ∨ ¬ ((1 <= maxHoursPerDay input)%Q ∧ (maxHoursPerDay input <= 24)%Q)
   ∨ RegExp.test timeRegex (startTime input) = false
   ↔ ∃ message,
       message ∈ validationMessages
       ∧ runSimulation w input
         = Throw ("Simulation failed: " +:+ message)%string)
  ∧ (availableDrivers input ≤ 0 →
     runSimulation w input
     = Throw "Simulation failed: Available drivers must be greater than 0").
Proof.
  intros [n Hn]. split.
  - rewrite <- (integer_hours_range _ _ Hn). split.
    + intros Hbad.
      destruct (validateSimulationInput input) as [[]|m] eqn:Hv.
      * apply validateSimulationInput_Ok in Hv as (? & ? & ? & ?).
        destruct Hbad as [? | [[? | ?] | ?]]; [lia | lra | lra | congruence].
      * exists m. split; [by eapply validateSimulationInput_Throw|].
        unfold runSimulation, simulate. by rewrite Hv.
    + intros (m & Hm & Hrun).
      destruct (validateSimulationInput input) as [[]|m'] eqn:Hv.
      * unfold runSimulation in Hrun.
        destruct (simulate w input) as [r|m'] eqn:Hsim; [done|].
        injection Hrun as Heq. change (m' = m) in Heq. subst m'.
        by destruct (simulate_Throw_valid _ _ _ Hv Hsim).
      * destruct (Z.leb_spec (availableDrivers input) 0); [by left|].
        destruct (Qlt_le_dec 0 (maxHoursPerDay input)); [|by right; left; left].
        destruct (Qlt_le_dec 24 (maxHoursPerDay input)); [by right; left; right|].
        destruct (RegExp.test timeRegex (startTime input)) eqn:Ht; [|by repeat right].
        assert (validateSimulationInput input = Ok ()) by
          by apply validateSimulationInput_Ok.
        congruence.
  - intros Ha. unfold runSimulation, simulate.
    by rewrite validateSimulationInput_drivers.
Qed.

Lemma validation_errors_witness :
  runSimulation Sample.world
    {| availableDrivers := 0; startTime := "08:00"; maxHoursPerDay := 10 |}
  = Throw "Simulation failed: Available drivers must be greater than 0".
Proof.
  refine (proj2 (validation_errors Sample.world
                   {| availableDrivers := 0; startTime := "08:00";
                      maxHoursPerDay := 10 |} _) _).
  - exists 10. reflexivity.
  - simpl. lia.
Defined.

(** C9, as stated, fails: the caller does not receive the validation
    message alone. *)
Lemma validation_message_counterexample :
  runSimulation Sample.world
    {| availableDrivers := 0; startTime := "08:00"; maxHoursPerDay := 10 |}
  ≠ Throw "Available drivers must be greater than 0".
Proof. vm_compute. discriminate. Qed.

(** ** The format of the start time *)

Lemma inRange_true lo hi c :
  RegExp.inRange lo hi c = true
  ↔ (N_of_ascii lo ≤ N_of_ascii c)%N ∧ (N_of_ascii c ≤ N_of_ascii hi)%N.
Proof.
  unfold RegExp.inRange. by rewrite andb_true_iff, !N.leb_le.
Qed.

Lemma inRange_false lo hi c :
  RegExp.inRange lo hi c = false
  ↔ (N_of_ascii c < N_of_ascii lo)%N ∨ (N_of_ascii hi < N_of_ascii c)%N.
Proof.
  unfold RegExp.inRange. rewrite andb_false_iff, !N.leb_gt. tauto.
Qed.

(** Case analysis on the tests of character classes that a goal makes on
    symbolic characters, ended by linear arithmetic on the codes. *)
Ltac split_ranges :=
  repeat match goal with
    | |- context [RegExp.inRange ?lo ?hi ?c] =>
        let E := fresh "E" in
        destruct (RegExp.inRange lo hi c) eqn:E;
        [apply inRange_true in E | apply inRange_false in E];
        cbn [N_of_ascii N_of_digits N.add N.mul Pos.add Pos.mul Pos.succ] in E;
        cbn [RegExp.test RegExp.deriv RegExp.nullable andb orb]
    end.

Lemma twoDigitHHMM_accepted s :
  twoDigitHHMM s = true → RegExp.test timeRegex s = true.
Proof.
  destruct s as [|h1 [|h2 [|c [|m1 [|m2 [|x s]]]]]]; try done.
  unfold twoDigitHHMM, digitOf.
  rewrite !andb_true_iff, !inRange_true, !Z.leb_le.
  cbn [N_of_ascii N_of_digits N.add N.mul Pos.add Pos.mul Pos.succ].
  intros ((((((H1 & H2) & Hc) & H3) & H4) & Hh) & Hm).
  unfold timeRegex.
  cbn [RegExp.test RegExp.deriv RegExp.nullable andb orb].
  split_ranges; try done; lia.
Qed.

(** C10. A start time with a one-digit hour passes validation: "8:30"
    does.  With the other two fields in range, validation throws the
    format message exactly when the start time fails [timeRegex], whose
    language has every two-digit 24-hour "HH:MM" and also "8:30", which
    is not one. *)
Theorem single_digit_hour_accepted :
  validateSimulationInput
    {| availableDrivers := 1; startTime := "8:30"; maxHoursPerDay := 8 |}
  = Ok ()
  ∧ twoDigitHHMM "8:30" = false
  ∧ (∀ s, twoDigitHHMM s = true → RegExp.test timeRegex s = true)
  ∧ ∀ input,
      0 < availableDrivers input →
      (0 < maxHoursPerDay input)%Q → (maxHoursPerDay input <= 24)%Q →
      (validateSimulationInput input
       = Throw "Start time must be in HH:MM format"
       ↔ RegExp.test timeRegex (startTime input) = false)
      ∧ (validateSimulationInput input = Ok ()
         ↔ RegExp.test timeRegex (startTime input) = true).
Proof.
  split; [by vm_compute|]. split; [by vm_compute|].
  split; [apply twoDigitHHMM_accepted|].
  intros input Ha Hlo Hhi.
  assert (validateSimulationInput input = Ok ()
          ↔ RegExp.test timeRegex (startTime input) = true) as Hok.
  { rewrite validateSimulationInput_Ok. tauto. }
  split; [|done].
  unfold validateSimulationInput in *.
  destruct (Z.leb_spec (availableDrivers input) 0); [lia|].
  destruct (Qle_bool (maxHoursPerDay input) 0) eqn:E1.
  { apply Qle_bool_iff in E1. lra. }
  destruct (Qgtb (maxHoursPerDay input) 24) eqn:E2.
  { apply Qgtb_true in E2. lra. }
  simpl. by destruct (RegExp.test timeRegex (startTime input)).
Qed.

Lemma single_digit_hour_accepted_witness :
  let input :=
    {| availableDrivers := 5; startTime := "25:00"; maxHoursPerDay := 10 |} in
  validateSimulationInput input = Throw "Start time must be in HH:MM format"
  ↔ RegExp.test timeRegex (startTime input) = false.
Proof.
  intros input.
  destruct single_digit_hour_accepted as (_ & _ & _ & H).
  apply (H input).
  - simpl. lia.
  - vm_compute. reflexivity.
  - vm_compute. discriminate.
Defined.

(** ** The wall clock *)

(** C6 fails on the code: the test of the bonus, run in UTC on the day of
    the deadline, has its order on time with a bonus of 150; the same
    input and collections on 2026-11-03 give a late order and no bonus. *)
Theorem runSimulation_depends_on_the_day :
  ∃ early late,
    runSimulation (Sample.bonusWorld Sample.jan15) Sample.input = Ok early
    ∧ runSimulation (Sample.bonusWorld Sample.nov3) Sample.input = Ok late
    ∧ map deliveryStatus (orderResults early) = [OnTime]
    ∧ map bonus (orderResults early) = [1500 * (1 # 10)]%Q
    ∧ map deliveryStatus (orderResults late) = [Late]
    ∧ map bonus (orderResults late) = [0%Q]
    ∧ early ≠ late.
Proof.
  set (r1 := runSimulation (Sample.bonusWorld Sample.jan15) Sample.input).
  set (r2 := runSimulation (Sample.bonusWorld Sample.nov3) Sample.input).
  vm_compute in r1, r2. subst r1 r2.
  eexists _, _. repeat split. discriminate.
Qed.

(** ** The time of delivery *)

(** C7 fails on the code: from 08:00 UTC on [Sample.routeR001], whose
    adjusted time is 54 minutes, a rested driver delivers after 54
    minutes and a fatigued one after 70 minutes, not after the 70.2
    minutes that are 1.3 times 54: [setMinutes] drops the fraction. *)
Theorem fatigued_delivery_time_truncated :
  let start := 1705305600000 in
  Route.adjustedTime Sample.routeR001 = 54%Q
  ∧ calculateDeliveryTime 0 (Some start) Sample.routeR001 false
    = Some (start + 54 * JSDate.msPerMinute)
  ∧ calculateDeliveryTime 0 (Some start) Sample.routeR001 true
    = Some (start + 70 * JSDate.msPerMinute)
  ∧ ¬ (inject_Z (70 * JSDate.msPerMinute)
       == (13 # 10) * inject_Z (54 * JSDate.msPerMinute))%Q.
Proof.
  intros start. repeat split; try by vm_compute.
Qed.

(** What [calculateDeliveryTime] adds to a valid start: the minutes of
    the route for a rested driver, and for a fatigued one the whole
    minutes in 1.3 times as many. *)
Lemma setMinutes_offset tz t k :
  JSDate.setMinutes tz (Some t)
    (Some (inject_Z (JSDate.MinFromTime (JSDate.LocalTime tz t)) + k)%Q)
  = Some (t + (ToIntegerOrInfinity
                 (inject_Z (JSDate.MinFromTime (JSDate.LocalTime tz t)) + k)
               - JSDate.MinFromTime (JSDate.LocalTime tz t))
              * JSDate.msPerMinute).
Proof.
  unfold JSDate.setMinutes. f_equal.
  generalize (ToIntegerOrInfinity
                (inject_Z (JSDate.MinFromTime (JSDate.LocalTime tz t)) + k)).
  intros n.
  unfold JSDate.UTC, JSDate.MakeDate, JSDate.MakeTime, JSDate.Day,
    JSDate.HourFromTime, JSDate.MinFromTime, JSDate.SecFromTime,
    JSDate.msFromTime, JSDate.LocalTime, JSDate.msPerDay, JSDate.msPerHour,
    JSDate.msPerMinute.
  remember (t + tz) as tl eqn:Htl.
  assert (H1 : tl / 3600000 = tl / 1000 / 60 / 60)
    by (rewrite !Z.div_div by lia; reflexivity).
  assert (H2 : tl / 60000 = tl / 1000 / 60)
    by (rewrite Z.div_div by lia; reflexivity).
  assert (H3 : tl / 86400000 = tl / 1000 / 60 / 60 / 24)
    by (rewrite !Z.div_div by lia; reflexivity).
  rewrite H3, H1, H2.
  Z.div_mod_to_equations. lia.
Qed.

Lemma Qfloor_add_Z (m : Z) (x : Q) : Qfloor (inject_Z m + x) = m + Qfloor x.
Proof.
  pose proof (Qfloor_le x) as Hlo. pose proof (Qlt_floor x) as Hhi.
  pose proof (Qfloor_le (inject_Z m + x)) as Hlo'.
  assert (m + Qfloor x ≤ Qfloor (inject_Z m + x)) as H1.
  { rewrite <- (Qfloor_Z (m + Qfloor x)). apply Qfloor_resp_le.
    rewrite inject_Z_plus. lra. }
  assert (Qfloor (inject_Z m + x) < m + Qfloor x + 1) as H2.
  { rewrite Zlt_Qlt. rewrite !inject_Z_plus in *. lra. }
  lia.
Qed.

Lemma ToIntegerOrInfinity_shift (m : Z) (x : Q) :
  0 ≤ m → (0 <= x)%Q →
  ToIntegerOrInfinity (inject_Z m + x) = m + Qfloor x.
Proof.
  intros Hm Hx. unfold ToIntegerOrInfinity.
  assert (0 <= inject_Z m)%Q
    by (change 0%Q with (inject_Z 0); by rewrite <- Zle_Qle).
  destruct (Qle_bool 0 (inject_Z m + x)) eqn:E.
  - apply Qfloor_add_Z.
  - apply not_true_iff_false in E. rewrite Qle_bool_iff in E. lra.
Qed.

Lemma ToIntegerOrInfinity_Z (n : Z) : ToIntegerOrInfinity (inject_Z n) = n.
Proof.
  unfold ToIntegerOrInfinity.
  destruct (Qle_bool 0 (inject_Z n)); [apply Qfloor_Z | apply Qceiling_Z].
Qed.

Lemma calculateDeliveryTime_rested tz t route :
  calculateDeliveryTime tz (Some t) route false
  = Some (t + Math_round
                (Route.baseTime route
                 * Route.trafficMultipliers (Route.trafficLevel route))
              * JSDate.msPerMinute).
Proof.
  change (calculateDeliveryTime tz (Some t) route false)
    with (JSDate.setMinutes tz (Some t)
            (Some (inject_Z (JSDate.MinFromTime (JSDate.LocalTime tz t))
                   + Route.adjustedTime route)%Q)).
  rewrite setMinutes_offset. do 2 f_equal.
  unfold Route.adjustedTime.
  rewrite <- inject_Z_plus, ToIntegerOrInfinity_Z. lia.
Qed.

Lemma calculateDeliveryTime_fatigued tz t route :
  (0 <= Route.baseTime route)%Q →
  calculateDeliveryTime tz (Some t) route true
  = Some (t + Qfloor (Route.adjustedTime route * (13 # 10))
              * JSDate.msPerMinute).
Proof.
  intros Hbase.
  change (calculateDeliveryTime tz (Some t) route true)
    with (JSDate.setMinutes tz (Some t)
            (Some (inject_Z (JSDate.MinFromTime (JSDate.LocalTime tz t))
                   + Route.adjustedTime route * (13 # 10))%Q)).
  rewrite setMinutes_offset. do 2 f_equal.
  rewrite ToIntegerOrInfinity_shift; [lia | |].
  - unfold JSDate.MinFromTime. apply Z.mod_pos_bound. lia.
  - assert (0 <= Route.adjustedTime route)%Q; [|lra].
    unfold Route.adjustedTime, Math_round.
    change 0%Q with (inject_Z 0). rewrite <- Zle_Qle.
    change 0 with (Qfloor 0). apply Qfloor_resp_le.
    assert (0 <= Route.trafficMultipliers (Route.trafficLevel route))%Q
      by (destruct (Route.trafficLevel route); by vm_compute).
    assert (0 <= Route.baseTime route
                 * Route.trafficMultipliers (Route.trafficLevel route))%Q
      by by apply Qmult_le_0_compat.
    lra.
Qed.

(** ** The start time of a validated input *)

Lemma RegExp_dead_nullable r : RegExp_dead r = true → RegExp.nullable r = false.
Proof.
  induction r; simpl; try done.
  - intros [H | H]%orb_true_iff; [rewrite IHr1 | rewrite IHr2]; try done.
    apply andb_false_r.
  - intros [H1 H2]%andb_true_iff. by rewrite IHr1, IHr2.
Qed.

Lemma RegExp_dead_deriv c r :
  RegExp_dead r = true → RegExp_dead (RegExp.deriv c r) = true.
Proof.
  induction r; simpl; try done.
  - intros [H | H]%orb_true_iff.
    + rewrite (RegExp_dead_nullable _ H). simpl. by rewrite IHr1.
    + destruct (RegExp.nullable r1); simpl; rewrite ?H, ?IHr2 by done;
        by rewrite ?orb_true_r.
  - intros [H1 H2]%andb_true_iff. by rewrite IHr1, IHr2.
Qed.

Lemma RegExp_dead_test r s : RegExp_dead r = true → RegExp.test r s = false.
Proof.
  revert r. induction s as [|c s IH]; intros r Hr; simpl.
  - by apply RegExp_dead_nullable.
  - by apply IH, RegExp_dead_deriv.
Qed.

Lemma eqb_inRange c c0 : Ascii.eqb c c0 = RegExp.inRange c0 c0 c.
Proof.
  destruct (Ascii.eqb_spec c c0) as [-> | Hne]; symmetry.
  - apply inRange_true. lia.
  - apply inRange_false.
    destruct (N.lt_total (N_of_ascii c) (N_of_ascii c0)) as [? | [Heq | ?]];
      [by left| |by right].
    destruct Hne. by rewrite <- (ascii_N_embedding c), Heq, ascii_N_embedding.
Qed.

Ltac split_ranges_in H :=
  repeat match type of H with
    | context [RegExp.inRange ?lo ?hi ?c] =>
        let E := fresh "E" in
        destruct (RegExp.inRange lo hi c) eqn:E;
        [apply inRange_true in E | apply inRange_false in E];
        cbn [N_of_ascii N_of_digits N.add N.mul Pos.add Pos.mul Pos.succ] in E;
        cbn [RegExp.test RegExp.deriv RegExp.nullable andb orb] in H
    end.

Ltac split_ranges_parse :=
  repeat match goal with
    | |- context [RegExp.inRange ?lo ?hi ?c] =>
        let E := fresh "E" in
        destruct (RegExp.inRange lo hi c) eqn:E;
        [apply inRange_true in E | apply inRange_false in E];
        cbn [N_of_ascii N_of_digits N.add N.mul Pos.add Pos.mul Pos.succ] in E;
        try (exfalso; lia);
        cbn [map String_split Number Number_from]
    end.

Lemma inRange_single c c0 : RegExp.inRange c0 c0 c = true → c = c0.
Proof. rewrite <- eqb_inRange. by intros H%Ascii.eqb_eq. Qed.

(** A start time that matches [timeRegex] is one or two digits, a colon
    and two digits, and splits at the colon into the hour and the minute
    that the digits write, within the 24-hour clock. *)
Lemma timeRegex_digits s :
  RegExp.test timeRegex s = true →
  (∃ h1 h2 m1 m2,
     s = String h1 (String h2 (String ":" (String m1 (String m2 EmptyString))))
     ∧ map Number (String_split ":" s)
       = [Some (digitOf h1 * 10 + digitOf h2);
          Some (digitOf m1 * 10 + digitOf m2)]
     ∧ (0 ≤ digitOf h1 ≤ 9 ∧ 0 ≤ digitOf h2 ≤ 9
        ∧ 0 ≤ digitOf m1 ≤ 9 ∧ 0 ≤ digitOf m2 ≤ 9)
     ∧ digitOf h1 * 10 + digitOf h2 ≤ 23
     ∧ digitOf m1 * 10 + digitOf m2 ≤ 59)
  ∨ (∃ h m1 m2,
       s = String h (String ":" (String m1 (String m2 EmptyString)))
       ∧ map Number (String_split ":" s)
         = [Some (digitOf h); Some (digitOf m1 * 10 + digitOf m2)]
       ∧ (0 ≤ digitOf h ≤ 9 ∧ 0 ≤ digitOf m1 ≤ 9 ∧ 0 ≤ digitOf m2 ≤ 9)
       ∧ digitOf m1 * 10 + digitOf m2 ≤ 59).
Proof.
  intros H. unfold timeRegex in H.
  destruct s as [|c1 [|c2 [|c3 [|c4 [|c5 [|c6 s]]]]]];
    cbn [RegExp.test RegExp.deriv RegExp.nullable andb orb] in H;
    split_ranges_in H;
    try discriminate H;
    try (rewrite RegExp_dead_test in H by reflexivity; discriminate H);
    try (exfalso; lia).
  all: repeat match goal with
       | c : ascii |- _ =>
           assert (c = ":"%char) as ->
             by (apply inRange_single, inRange_true;
                 change (N_of_ascii ":") with 58%N; lia)
       end.
  all: first
    [ left; eexists _, _, _, _; split; [reflexivity|]
    | right; eexists _, _, _; split; [reflexivity|] ].
  all: cbn [map String_split Number Number_from]; rewrite ?eqb_inRange;
    split_ranges_parse; unfold digitOf;
    (split; [do 2 f_equal; lia | lia]).
Qed.

(** X20. A start time that passes validation is written with one or two
    digits, a colon and two digits, and [split(':').map(Number)] gives the
    hour and the minute that these digits write, an hour from 0 to 23 and
    a minute from 0 to 59. *)
Theorem startTime_digits input :
  validateSimulationInput input = Ok () →
  (∃ h1 h2 m1 m2,
     startTime input
     = String h1 (String h2 (String ":" (String m1 (String m2 EmptyString))))
     ∧ map Number (String_split ":" (startTime input))
       = [Some (digitOf h1 * 10 + digitOf h2);
          Some (digitOf m1 * 10 + digitOf m2)]
     ∧ (0 ≤ digitOf h1 ≤ 9 ∧ 0 ≤ digitOf h2 ≤ 9
        ∧ 0 ≤ digitOf m1 ≤ 9 ∧ 0 ≤ digitOf m2 ≤ 9)
     ∧ digitOf h1 * 10 + digitOf h2 ≤ 23
     ∧ digitOf m1 * 10 + digitOf m2 ≤ 59)
  ∨ (∃ h m1 m2,
       startTime input
       = String h (String ":" (String m1 (String m2 EmptyString)))
       ∧ map Number (String_split ":" (startTime input))
         = [Some (digitOf h); Some (digitOf m1 * 10 + digitOf m2)]
       ∧ (0 ≤ digitOf h ≤ 9 ∧ 0 ≤ digitOf m1 ≤ 9 ∧ 0 ≤ digitOf m2 ≤ 9)
       ∧ digitOf m1 * 10 + digitOf m2 ≤ 59).
Proof.
  intros (_ & _ & _ & Ht)%validateSimulationInput_Ok.
  by apply timeRegex_digits.
Qed.

Lemma startTime_digits_witness :
  (∃ h1 h2 m1 m2,
     startTime Sample.input
     = String h1 (String h2 (String ":" (String m1 (String m2 EmptyString))))
     ∧ map Number (String_split ":" (startTime Sample.input))
       = [Some (digitOf h1 * 10 + digitOf h2);
          Some (digitOf m1 * 10 + digitOf m2)]
     ∧ (0 ≤ digitOf h1 ≤ 9 ∧ 0 ≤ digitOf h2 ≤ 9
        ∧ 0 ≤ digitOf m1 ≤ 9 ∧ 0 ≤ digitOf m2 ≤ 9)
     ∧ digitOf h1 * 10 + digitOf h2 ≤ 23
     ∧ digitOf m1 * 10 + digitOf m2 ≤ 59)
  ∨ (∃ h m1 m2,
       startTime Sample.input
       = String h (String ":" (String m1 (String m2 EmptyString)))
       ∧ map Number (String_split ":" (startTime Sample.input))
         = [Some (digitOf h); Some (digitOf m1 * 10 + digitOf m2)]
       ∧ (0 ≤ digitOf h ≤ 9 ∧ 0 ≤ digitOf m1 ≤ 9 ∧ 0 ≤ digitOf m2 ≤ 9)
       ∧ digitOf m1 * 10 + digitOf m2 ≤ 59).
Proof. apply (startTime_digits Sample.input). reflexivity. Defined.


(** * Further properties of the engine *)

(** ** Rounding *)

Lemma Math_round_mono x y : (x <= y)%Q → Math_round x ≤ Math_round y.
Proof. intros Hxy. unfold Math_round. apply Qfloor_resp_le. lra. Qed.

Lemma Math_round_Z (n : Z) : Math_round (inject_Z n) = n.
Proof.
  unfold Math_round. rewrite Qfloor_add_Z.
  change (Qfloor (1 # 2)) with 0. lia.
Qed.

Lemma round2_comp x y : x == y → round2 x = round2 y.
Proof.
  intros Hxy. unfold round2, Math_round.
  assert (x * 100 + (1 # 2) == y * 100 + (1 # 2))%Q as H by (by rewrite Hxy).
  by rewrite (Qfloor_comp _ _ H).
Qed.

(** ** Sums over the results *)

Lemma sumOf_from f rs (a : Q) :
  fold_left (λ sum order, (sum + f order)%Q) rs a == a + sumOf f rs.
Proof.
  unfold sumOf. revert a. induction rs as [|r rs IH]; intros a; simpl.
  - lra.
  - rewrite (IH (a + f r)%Q), (IH (0 + f r)%Q). lra.
Qed.

Lemma sumOf_cons f r rs : sumOf f (r :: rs) == f r + sumOf f rs.
Proof.
  unfold sumOf at 1. simpl. rewrite sumOf_from. lra.
Qed.

Lemma sumOf_penalty rs :
  Forall (λ r, penalty r
               = match deliveryStatus r with OnTime => 0 | Late => 50 end%Q)
    rs →
  sumOf penalty rs
  == 50 * inject_Z (Z.of_nat (length (List.filter (isStatus Late) rs))).
Proof.
  induction 1 as [|r rs Hr _ IH].
  - by vm_compute.
  - rewrite sumOf_cons, IH, Hr. cbn [List.filter].
    remember (List.filter (isStatus Late) rs) as late eqn:Hlate.
    change (isStatus Late r)
      with (match deliveryStatus r with OnTime => false | Late => true end).
    destruct (deliveryStatus r); [lra|].
    cbn [length]. rewrite Nat2Z.inj_succ, <- Z.add_1_r, inject_Z_plus.
    change (inject_Z 1) with 1%Q. lra.
Qed.

(** The entries of a result of [calculateOrderResults], one by one. *)
Lemma calculateOrderResults_entries tz orders routes assignments st rs :
  calculateOrderResults tz orders routes assignments st = Ok rs →
  Forall2
    (λ order r,
       orderResult tz (routeMapOf routes) assignments st order = Ok r)
    orders rs.
Proof. unfold calculateOrderResults. apply mapM_Ok. Qed.

Lemma calculateOrderResults_consistent tz orders routes assignments st rs :
  calculateOrderResults tz orders routes assignments st = Ok rs →
  Forall
    (λ r, penalty r
          = match deliveryStatus r with OnTime => 0 | Late => 50 end%Q
          ∧ profit r = (orderValue r + bonus r - penalty r - fuelCost r)%Q)
    rs.
Proof.
  intros Hrs%calculateOrderResults_entries.
  induction Hrs as [|order r orders rs Hr _ IH]; constructor; [|done].
  apply orderResult_Ok in Hr as (route & _ & H). cbn zeta in H.
  destruct H as (_ & _ & Hval & _ & Hst & _ & Hpen & _ & Hprofit).
  rewrite Hst, Hval. split; [|done].
  rewrite Hpen. by destruct (JSDate.le _ _).
Qed.

(** ** The KPIs *)

(** X1. Every order result is counted once: the on-time and the late
    deliveries add up to the number of results. *)
Theorem kpis_counts_partition rs :
  (KPIs.onTimeDeliveries (calculateKPIs rs)
   + KPIs.lateDeliveries (calculateKPIs rs))%nat
  = length rs.
Proof.
  cbn [calculateKPIs KPIs.onTimeDeliveries KPIs.lateDeliveries].
  induction rs as [|r rs IH]; [done|].
  cbn [List.filter].
  change (isStatus OnTime r)
    with (match deliveryStatus r with OnTime => true | Late => false end).
  change (isStatus Late r)
    with (match deliveryStatus r with OnTime => false | Late => true end).
  destruct (deliveryStatus r); cbn [length]; lia.
Qed.

Lemma onTime_count_le rs :
  (length (List.filter (isStatus OnTime) rs) ≤ length rs)%nat.
Proof.
  induction rs as [|r rs IH]; [done|].
  cbn [List.filter]. destruct (isStatus OnTime r); cbn [length]; lia.
Qed.

Lemma onTime_count_all rs :
  Forall (λ r, deliveryStatus r = OnTime) rs →
  length (List.filter (isStatus OnTime) rs) = length rs.
Proof.
  induction 1 as [|r rs Hr _ IH]; [done|].
  cbn [List.filter]. unfold isStatus at 1. rewrite Hr.
  cbn [length]. by rewrite IH.
Qed.

Lemma onTime_count_none rs :
  Forall (λ r, deliveryStatus r = Late) rs →
  length (List.filter (isStatus OnTime) rs) = 0%nat.
Proof.
  induction 1 as [|r rs Hr _ IH]; [done|].
  cbn [List.filter]. unfold isStatus at 1. by rewrite Hr.
Qed.

(** X2. The efficiency score is between 0 and 100; it is 100 when there
    are results and all are on time, and 0 when none is. *)
Theorem efficiencyScore_range rs :
  (0 <= KPIs.efficiencyScore (calculateKPIs rs))%Q
  ∧ (KPIs.efficiencyScore (calculateKPIs rs) <= 100)%Q
  ∧ (rs ≠ [] → Forall (λ r, deliveryStatus r = OnTime) rs →
     KPIs.efficiencyScore (calculateKPIs rs) == 100)
  ∧ (Forall (λ r, deliveryStatus r = Late) rs →
     KPIs.efficiencyScore (calculateKPIs rs) == 0).
Proof.
  cbn [calculateKPIs KPIs.efficiencyScore].
  set (on := length (List.filter (isStatus OnTime) rs)).
  set (total := length rs).
  assert (on ≤ total)%nat as Hle by apply onTime_count_le.
  set (e := if (0 <? total)%nat
            then (inject_Z (Z.of_nat on) / inject_Z (Z.of_nat total) * 100)%Q
            else 0%Q).
  assert (0 <= e ∧ e <= 100)%Q as [He0 He100].
  { subst e. destruct (Nat.ltb_spec 0 total) as [Hpos | Hz]; [|lra].
    assert (0 < inject_Z (Z.of_nat total))%Q as Ht
      by (change 0%Q with (inject_Z 0); rewrite <- Zlt_Qlt; lia).
    assert (0 <= inject_Z (Z.of_nat on))%Q as Ho
      by (change 0%Q with (inject_Z 0); rewrite <- Zle_Qle; lia).
    assert (inject_Z (Z.of_nat on) <= inject_Z (Z.of_nat total))%Q as Hot
      by (rewrite <- Zle_Qle; lia).
    assert (0 <= inject_Z (Z.of_nat on) / inject_Z (Z.of_nat total))%Q
      by (apply Qle_shift_div_l; lra).
    assert (inject_Z (Z.of_nat on) / inject_Z (Z.of_nat total) <= 1)%Q
      by (apply Qle_shift_div_r; lra).
    lra. }
  assert (∀ v : Q, (0 <= v)%Q → (v <= 100)%Q →
            (0 <= round2 v)%Q ∧ (round2 v <= 100)%Q) as Hround.
  { intros v Hv0 Hv100. unfold round2.
    assert (0 ≤ Math_round (v * 100)) as H0.
    { rewrite <- (Math_round_Z 0). apply Math_round_mono.
      change (inject_Z 0) with 0%Q. lra. }
    assert (Math_round (v * 100) ≤ 10000) as H1.
    { rewrite <- (Math_round_Z 10000). apply Math_round_mono.
      change (inject_Z 10000) with 10000%Q. lra. }
    rewrite Zle_Qle in H0, H1.
    change (inject_Z 0) with 0%Q in H0.
    change (inject_Z 10000) with 10000%Q in H1.
    set (r := inject_Z (Math_round (v * 100))) in *.
    assert (r / 100 == r * (1 # 100))%Q as -> by (by field).
    split; lra. }
  destruct (Hround e He0 He100) as [Hr0 Hr100].
  repeat split; try done.
  - intros Hne Hall.
    assert (e == 100) as He; [|by rewrite (round2_comp _ _ He)].
    subst e. pose proof (onTime_count_all rs Hall) as Hon. fold on in Hon.
    fold total in Hon.
    destruct (Nat.ltb_spec 0 total) as [Hpos | Hz].
    + rewrite Hon. field.
      intros Heq. unfold Qeq in Heq. simpl in Heq. lia.
    + subst total. destruct rs; [done | simpl in Hz; lia].
  - intros Hall.
    assert (e == 0) as He; [|by rewrite (round2_comp _ _ He)].
    subst e. pose proof (onTime_count_none rs Hall) as Hon. fold on in Hon.
    destruct (0 <? total)%nat; [|done]. rewrite Hon.
    change (inject_Z (Z.of_nat 0)) with 0%Q.
    unfold Qdiv. lra.
Qed.

Lemma efficiencyScore_range_witness :
  KPIs.efficiencyScore (calculateKPIs [Sample_orderResult]) == 100.
Proof.
  destruct (efficiencyScore_range [Sample_orderResult]) as (_ & _ & H & _).
  apply H; [discriminate|]. repeat constructor.
Defined.

(** X3. On the results of [calculateOrderResults] the total of the
    penalties is 50 for each late delivery. *)
Theorem penalties_count_late tz orders routes assignments st rs :
  calculateOrderResults tz orders routes assignments st = Ok rs →
  KPIs.penalties (calculateKPIs rs)
  == 50 * inject_Z (Z.of_nat (KPIs.lateDeliveries (calculateKPIs rs))).
Proof.
  intros Hrs%calculateOrderResults_consistent.
  cbn [calculateKPIs KPIs.penalties KPIs.lateDeliveries].
  apply sumOf_penalty. eapply Forall_impl; [exact Hrs|]. by intros r [? _].
Qed.

Lemma penalties_count_late_witness :
  KPIs.penalties (calculateKPIs [Sample_orderResult])
  == 50 * inject_Z
            (Z.of_nat (KPIs.lateDeliveries (calculateKPIs [Sample_orderResult]))).
Proof.
  apply (penalties_count_late 0 [Sample.orderO001] [Sample.routeR001]
           [Sample_assignment] (Some 1705305600000) [Sample_orderResult]).
  vm_compute. reflexivity.
Defined.

(** ** More on the assignment loop *)

Section AssignLoopMore.
Variables (routes : list Route.t) (maxHours : Q) (st : JSDate.Date).

Lemma alter_assignTo_fmap {B} (key : DriverAssignment → B) order route j
    (assignments : list DriverAssignment) :
  (∀ a, key (assignTo order route a) = key a) →
  map key (alter (assignTo order route) j assignments) = map key assignments.
Proof.
  intros Hkey. revert j.
  induction assignments as [|a assignments IH]; intros [|j]; simpl; try done.
  - by rewrite Hkey.
  - f_equal. apply IH.
Qed.

Lemma assignLoop_fmap {B} (key : DriverAssignment → B) orders assignments :
  (∀ order route a, key (assignTo order route a) = key a) →
  map key (fold_left (assignOrder (routeMapOf routes) maxHours st)
             orders assignments)
  = map key assignments.
Proof.
  intros Hkey. revert assignments.
  induction orders as [|order orders IH]; intros assignments; [done|].
  simpl. rewrite IH.
  destruct (assignOrder_cases (routeMapOf routes) maxHours st assignments order)
    as [-> | (route & j & a & _ & _ & _ & ->)]; [done|].
  by apply alter_assignTo_fmap.
Qed.

Lemma Forall_alter_weaken {A} (P Q : A → Prop) (f : A → A) i (l : list A) :
  Forall P l →
  (∀ x, P x → Q x) →
  (∀ x, l !! i = Some x → P x → Q (f x)) →
  Forall Q (alter f i l).
Proof.
  intros Hl HPQ. revert i.
  induction Hl as [|x l Hx Hl IH]; intros [|i] Hf; simpl; constructor; auto.
  - eapply Forall_impl; [exact Hl | exact HPQ].
  - apply IH. intros y Hy. by apply Hf.
Qed.

(** The lists of the assignments are sublists of the ids of the routable
    orders met so far. *)
Lemma assignLoop_sublist todo past assignments :
  Forall (λ a, assignedOrders a
               `sublist_of` map Order.orderId
                              (List.filter (routable routes) past))
    assignments →
  Forall (λ a, assignedOrders a
               `sublist_of` map Order.orderId
                              (List.filter (routable routes) (past ++ todo)))
    (fold_left (assignOrder (routeMapOf routes) maxHours st) todo assignments).
Proof.
  revert past assignments.
  induction todo as [|order todo IH]; intros past assignments Hsub.
  - by rewrite app_nil_r.
  - simpl. rewrite cons_middle, app_assoc. apply IH.
    rewrite List.filter_app, map_app. cbn [List.filter].
    destruct (routeMapOf routes !! Order.assignedRoute order) as [route|] eqn:Hr.
    + assert (routable routes order = true) as ->.
      { unfold routable. apply bool_decide_eq_true. by rewrite Hr. }
      destruct (assignOrder_cases (routeMapOf routes) maxHours st
                  assignments order)
        as [-> | (route' & j & a & _ & Hj & _ & ->)].
      * eapply Forall_impl; [exact Hsub|]. intros a Ha.
        by apply sublist_inserts_r.
      * eapply Forall_alter_weaken; [exact Hsub| |].
        -- intros b Hb. by apply sublist_inserts_r.
        -- intros b _ Hb. simpl. by apply sublist_app.
    + rewrite assignOrder_unknown_route by done.
      eapply Forall_impl; [exact Hsub|]. intros a Ha.
      by apply sublist_inserts_r.
Qed.
End AssignLoopMore.

(** X7. [assignOrdersToDrivers] returns one assignment per driver, in
    the order of the drivers, with the driver's id and name and the
    fatigue flag of the [Driver] model; the loop changes none of them. *)
Theorem assignments_follow_drivers drivers orders routes st maxHours :
  map (λ a, (driverId a, driverName a, isFatigued a))
    (assignOrdersToDrivers drivers orders routes st maxHours)
  = map (λ d, (Driver._id d, Driver.name d, Driver.isFatigued d)) drivers.
Proof.
  unfold assignOrdersToDrivers. rewrite assignLoop_fmap by done.
  induction drivers as [|d drivers IH]; [done|]. simpl. by rewrite IH.
Qed.

(** X8. The list of every returned assignment is a sublist of the ids of
    the orders of known route, taken in the order of the sort: a driver's
    orders are in ascending order of deadline, and an order whose route
    is unknown is in no list. *)
Theorem assigned_in_deadline_order drivers orders routes st maxHours a :
  a ∈ assignOrdersToDrivers drivers orders routes st maxHours →
  assignedOrders a
  `sublist_of` map Order.orderId
                 (List.filter (routable routes)
                    (Array_sort compareDeadline orders)).
Proof.
  revert a. apply Forall_forall. unfold assignOrdersToDrivers.
  apply (assignLoop_sublist routes maxHours st _ []).
  apply Forall_forall. intros a (d & -> & _)%list_elem_of_fmap.
  simpl. apply sublist_nil_l.
Qed.

Lemma assigned_in_deadline_order_witness :
  assignedOrders Sample_assignment
  `sublist_of` map Order.orderId
                 (List.filter (routable [Sample.routeR001])
                    (Array_sort compareDeadline
                       [Sample.strayOrder; Sample.orderO001])).
Proof.
  apply (assigned_in_deadline_order [Sample.driver1]
           [Sample.strayOrder; Sample.orderO001] [Sample.routeR001]
           None 10 Sample_assignment).
  vm_compute. left.
Defined.

(** ** More on the results per order *)

Lemma orderResult_known tz routes assignments st o :
  Order.assignedRoute o ∈ map Route.routeId routes →
  ∃ r, orderResult tz (routeMapOf routes) assignments st o = Ok r.
Proof.
  intros Hknown. unfold orderResult.
  destruct (routeMapOf routes !! Order.assignedRoute o) eqn:Hr; [by eexists|].
  by apply routeMapOf_None in Hr.
Qed.

(** X12. [calculateOrderResults] returns exactly when the route id of
    every order is the id of a route, and then with one result per order,
    in the order of the orders, that carries the order's id, route id and
    value. *)
Theorem order_results_shape tz orders routes assignments st :
  ((∃ rs, calculateOrderResults tz orders routes assignments st = Ok rs)
   ↔ ∀ o, o ∈ orders → Order.assignedRoute o ∈ map Route.routeId routes)
  ∧ ∀ rs, calculateOrderResults tz orders routes assignments st = Ok rs →
      map (λ r, (orderId r, routeId r, orderValue r)) rs
      = map (λ o, (Order.orderId o, Order.assignedRoute o, Order.value o))
          orders.
Proof.
  split; [split|].
  - intros [rs Hrs] o Ho.
    destruct (decide (Order.assignedRoute o ∈ map Route.routeId routes))
      as [|Hno]; [done|].
    destruct (calculateOrderResults_unknown_route tz orders routes
                assignments st o Ho Hno) as [m Hm].
    congruence.
  - apply calculateOrderResults_total.
  - intros rs Hrs%calculateOrderResults_entries.
    induction Hrs as [|o r orders rs Hr _ IH]; [done|].
    apply orderResult_Ok in Hr as (route & _ & H). cbn zeta in H.
    destruct H as (Hid & Hrid & Hval & _).
    simpl. by rewrite Hid, Hrid, Hval, IH.
Qed.

Lemma order_results_shape_witness :
  map (λ r, (orderId r, routeId r, orderValue r)) [Sample_orderResult]
  = map (λ o, (Order.orderId o, Order.assignedRoute o, Order.value o))
      [Sample.orderO001].
Proof.
  destruct (order_results_shape 0 [Sample.orderO001] [Sample.routeR001]
              [Sample_assignment] (Some 1705305600000)) as [_ H].
  apply H. vm_compute. reflexivity.
Defined.

(** X13. When the route of some order is unknown, the error names the
    first such order in the order of the input: nothing after it is
    looked at. *)
Theorem first_unknown_route_reported tz before o after routes assignments st :
  (∀ p, p ∈ before → Order.assignedRoute p ∈ map Route.routeId routes) →
  Order.assignedRoute o ∉ map Route.routeId routes →
  calculateOrderResults tz (before ++ o :: after) routes assignments st
  = Throw ("Route " +:+ Order.assignedRoute o +:+ " not found").
Proof.
  intros Hbefore Ho. unfold calculateOrderResults.
  induction before as [|p before IH]; simpl.
  - unfold mbind, Result_bind, orderResult at 1.
    apply routeMapOf_None in Ho. by rewrite Ho.
  - unfold mbind, mret, Result_bind, Result_ret in *.
    destruct (orderResult_known tz routes assignments st p) as [r ->];
      [apply Hbefore; left|].
    rewrite IH; [done|]. intros q Hq. apply Hbefore. by right.
Qed.

Lemma first_unknown_route_reported_witness :
  calculateOrderResults 0
    ([Sample.orderO001] ++ Sample.strayOrder :: [Sample.lateOrder])
    [Sample.routeR001] [] None
  = Throw "Route R999 not found".
Proof.
  apply (first_unknown_route_reported 0 [Sample.orderO001] Sample.strayOrder
           [Sample.lateOrder] [Sample.routeR001] [] None).
  - intros p ->%list_elem_of_singleton. vm_compute. left.
  - vm_compute. intros H%list_elem_of_singleton. discriminate.
Defined.

(** ** More on the runs *)

(** X18. A result has one assignment for each of the first
    [availableDrivers] drivers of the collection, in their order, and one
    order result for each undelivered order of the collection, in their
    order: a delivered order has no result. *)
Theorem result_shape w input result :
  runSimulation w input = Ok result →
  map driverId (driverAssignments result)
  = map Driver._id
      (take (Z.to_nat (availableDrivers input)) (Driver_collection w))
  ∧ map orderId (orderResults result)
    = map Order.orderId
        (List.filter (λ o, negb (Order.isDelivered o)) (Order_collection w)).
Proof.
  intros (_ & _ & _ & Hasg & Hrs & _)%runSimulation_Ok. cbn zeta in *.
  split.
  - rewrite Hasg. unfold assignOrdersToDrivers.
    rewrite assignLoop_fmap by done. unfold fetchDrivers.
    by rewrite <- list_fmap_compose.
  - apply calculateOrderResults_entries in Hrs. unfold fetchOrders in Hrs.
    induction Hrs as [|o r os rs Hr _ IH]; [done|].
    apply orderResult_Ok in Hr as (route & _ & H). cbn zeta in H.
    destruct H as (Hid & _). simpl. by rewrite Hid, IH.
Qed.

Lemma result_shape_witness :
  map driverId (driverAssignments Sample_result)
  = map Driver._id
      (take (Z.to_nat (availableDrivers Sample.input))
         (Driver_collection Sample.world))
  ∧ map orderId (orderResults Sample_result)
    = map Order.orderId
        (List.filter (λ o, negb (Order.isDelivered o))
           (Order_collection Sample.world)).
Proof.
  apply (result_shape Sample.world Sample.input Sample_result).
  vm_compute. reflexivity.
Defined.

(** ** More on the start time *)

Ltac solve_twoDigit :=
  unfold twoDigitHHMM, digitOf;
  rewrite !andb_true_iff, !inRange_true, !Z.leb_le;
  cbn [N_of_ascii N_of_digits N.add N.mul Pos.add Pos.mul Pos.succ];
  lia.

(** X19. The pattern of the start time accepts exactly the times of the
    24-hour clock written "HH:MM", the leading zero of the hour being
    optional: a string matches when it, or it after a "0", is such a
    two-digit time. *)
Theorem timeRegex_language s :
  RegExp.test timeRegex s = true
  ↔ twoDigitHHMM s = true ∨ twoDigitHHMM (String "0" s) = true.
Proof.
  split.
  - intros H. unfold timeRegex in H.
    destruct s as [|c1 [|c2 [|c3 [|c4 [|c5 [|c6 s]]]]]];
      cbn [RegExp.test RegExp.deriv RegExp.nullable andb orb] in H;
      split_ranges_in H;
      try discriminate H;
      try (rewrite RegExp_dead_test in H by reflexivity; discriminate H);
      try (exfalso; lia);
      first [left; solve_twoDigit | right; solve_twoDigit].
  - intros [H | H]; [by apply twoDigitHHMM_accepted|].
    destruct s as [|c1 [|c2 [|c3 [|c4 [|c5 s]]]]]; try done.
    revert H. unfold twoDigitHHMM, digitOf.
    rewrite !andb_true_iff, !inRange_true, !Z.leb_le.
    cbn [N_of_ascii N_of_digits N.add N.mul Pos.add Pos.mul Pos.succ].
    intros ((((((H1 & H2) & Hc) & H3) & H4) & Hh) & Hm).
    unfold timeRegex.
    cbn [RegExp.test RegExp.deriv RegExp.nullable andb orb].
    split_ranges; try done; lia.
Qed.


(** * The route of the simulation *)

(** ** Authorization *)

Lemma includes_manager_admin r :
  includes ["manager"%string; "admin"%string] r = true
  ↔ r = "manager"%string ∨ r = "admin"%string.
Proof.
  rewrite includes_true, elem_of_cons, list_elem_of_singleton. done.
Qed.

Lemma authorizeRoles_Next {B} roles (req req' : Http.Request B) :
  Http.authorizeRoles roles req = Http.Next req'
  ↔ req' = req ∧ ∃ u, Http.user req = Some u ∧ Http.role u ∈ roles.
Proof.
  unfold Http.authorizeRoles. destruct (Http.user req) as [u|].
  - destruct (includes roles (Http.role u)) eqn:Hin; simpl.
    + apply includes_true in Hin. split.
      * intros [= <-]. eauto.
      * by intros [-> _].
    + apply not_true_iff_false in Hin. rewrite includes_true in Hin.
      split; [done|]. by intros [_ (u' & [= <-] & ?)].
  - split; [done|]. by intros [_ (u & ? & _)].
Qed.

(** X22. [requireManager] lets a request through, unchanged, exactly when
    it carries a user whose role is "manager" or "admin", and
    [requireAdmin] exactly when the role is "admin", so that whatever
    passes [requireAdmin] passes [requireManager]; without a user the
    answer is 401, and with a user of another role 403. *)
Theorem role_gates {B} (req : Http.Request B) :
  (∀ req', Http.requireManager req = Http.Next req'
           ↔ req' = req
             ∧ ∃ u, Http.user req = Some u
                    ∧ (Http.role u = "manager"%string
                       ∨ Http.role u = "admin"%string))
  ∧ (∀ req', Http.requireAdmin req = Http.Next req'
             ↔ req' = req
               ∧ ∃ u, Http.user req = Some u ∧ Http.role u = "admin"%string)
  ∧ (∀ req', Http.requireAdmin req = Http.Next req' →
             Http.requireManager req = Http.Next req')
  ∧ (Http.user req = None →
     Http.requireManager req
     = Http.Respond {| Http.status := 401;
                       Http.json := Http.Failure "Authentication required" |})
  ∧ (∀ u, Http.user req = Some u →
          Http.role u ≠ "manager"%string → Http.role u ≠ "admin"%string →
          Http.requireManager req
          = Http.Respond
              {| Http.status := 403;
                 Http.json := Http.Failure "Insufficient permissions" |}).
Proof.
  assert (∀ req', Http.requireManager req = Http.Next req'
           ↔ req' = req
             ∧ ∃ u, Http.user req = Some u
                    ∧ (Http.role u = "manager"%string
                       ∨ Http.role u = "admin"%string)) as Hmanager.
  { intros req'. unfold Http.requireManager.
    rewrite authorizeRoles_Next.
    by setoid_rewrite elem_of_cons; setoid_rewrite list_elem_of_singleton. }
  assert (∀ req', Http.requireAdmin req = Http.Next req'
             ↔ req' = req
               ∧ ∃ u, Http.user req = Some u ∧ Http.role u = "admin"%string)
    as Hadmin.
  { intros req'. unfold Http.requireAdmin. rewrite authorizeRoles_Next.
    by setoid_rewrite list_elem_of_singleton. }
  split; [done|]. split; [done|]. split; [|split].
  - intros req' [-> (u & Hu & Hr)]%Hadmin. apply Hmanager. eauto.
  - intros Hu. unfold Http.requireManager, Http.authorizeRoles.
    by rewrite Hu.
  - intros u Hu Hm Ha. unfold Http.requireManager, Http.authorizeRoles.
    rewrite Hu.
    destruct (includes _ _) eqn:Hin; [|done].
    apply includes_manager_admin in Hin. tauto.
Qed.

Lemma role_gates_witness :
  let req :=
    {| Http.authorization := None;
       Http.user := Some {| Http.role := "admin"; Http.isActive := true |};
       Http.body := Sample.input |} in
  Http.requireManager req = Http.Next req.
Proof.
  intros req. destruct (role_gates req) as (_ & _ & H & _).
  apply H. vm_compute. reflexivity.
Defined.

(** ** Authentication *)

Lemma String_split_without sep s :
  String_has sep s = false → String_split sep s = [s].
Proof.
  induction s as [|c s IH]; simpl; [done|].
  intros [Hc Hs]%orb_false_iff. rewrite Hc, IH by done. done.
Qed.

Lemma String_split_at sep s rest :
  String_has sep s = false →
  String_split sep (s +:+ String sep rest) = s :: String_split sep rest.
Proof.
  induction s as [|c s IH]; simpl.
  - intros _. by rewrite Ascii.eqb_refl.
  - intros [Hc Hs]%orb_false_iff. rewrite Hc, IH by done. done.
Qed.

Lemma tokenOf_at s rest :
  String_has " " s = false →
  Http.tokenOf (Some (s +:+ String " " rest))
  = head (String_split " " rest).
Proof.
  intros Hs. unfold Http.tokenOf.
  destruct (s +:+ String " " rest) as [|c x] eqn:Hx.
  { by destruct s. }
  rewrite <- Hx, String_split_at by done. simpl.
  by destruct (String_split " " rest).
Qed.

(** X23. Without an [Authorization] header, with a header that has no
    space, or with one whose first space is the last character or is
    followed by another space, the answer is 401 "Access token is
    required". *)
Theorem token_required {B E Decoded}
    (jwt_verify : string → Http.Attempt E Decoded)
    (User_findById : Decoded → Http.Attempt E (option Http.User))
    (isJsonWebTokenError isTokenExpiredError : E → bool)
    (req : Http.Request B) :
  let authenticate :=
    Http.authenticateToken jwt_verify User_findById isJsonWebTokenError
      isTokenExpiredError in
  (Http.authorization req = None → authenticate req = tokenRequired)
  ∧ (∀ header, Http.authorization req = Some header →
               String_has " " header = false →
               authenticate req = tokenRequired)
  ∧ (∀ scheme rest,
       Http.authorization req = Some (scheme +:+ String " " rest) →
       String_has " " scheme = false →
       rest = EmptyString ∨ (∃ more, rest = String " " more) →
       authenticate req = tokenRequired).
Proof.
  unfold Http.authenticateToken, tokenRequired. repeat split.
  - by intros ->.
  - intros header -> Hno. unfold Http.tokenOf.
    destruct header as [|c header]; [done|].
    by rewrite String_split_without.
  - intros scheme rest -> Hno Hrest. rewrite tokenOf_at by done.
    destruct Hrest as [-> | [more ->]]; [done|]. done.
Qed.

Lemma token_required_witness :
  Http.authenticateToken SampleHttp.jwt_verify SampleHttp.User_findById
    SampleHttp.isJsonWebTokenError SampleHttp.isTokenExpiredError
    (SampleHttp.request "Bearer  good")
  = tokenRequired.
Proof.
  destruct (token_required SampleHttp.jwt_verify SampleHttp.User_findById
              SampleHttp.isJsonWebTokenError SampleHttp.isTokenExpiredError
              (SampleHttp.request "Bearer  good")) as (_ & _ & H).
  apply (H "Bearer"%string " good"%string); [reflexivity..|].
  right. by eexists.
Defined.

(** X24. The word before the token is not looked at: two requests whose
    headers differ only in the part before the first space are answered
    alike, or passed on with the same user. *)
Theorem scheme_ignored {B E Decoded}
    (jwt_verify : string → Http.Attempt E Decoded)
    (User_findById : Decoded → Http.Attempt E (option Http.User))
    (isJsonWebTokenError isTokenExpiredError : E → bool)
    (scheme1 scheme2 rest : string) (u : option Http.User) (b : B) :
  String_has " " scheme1 = false →
  String_has " " scheme2 = false →
  let authenticate scheme :=
    Http.authenticateToken jwt_verify User_findById isJsonWebTokenError
      isTokenExpiredError
      {| Http.authorization := Some (scheme +:+ String " " rest);
         Http.user := u; Http.body := b |} in
  outcomeView (authenticate scheme1) = outcomeView (authenticate scheme2).
Proof.
  intros H1 H2 authenticate. subst authenticate. cbv beta.
  unfold Http.authenticateToken. cbn [Http.authorization Http.body].
  rewrite !tokenOf_at by done.
  destruct (head (String_split " " rest)) as [[|c token]|]; try done.
  destruct (jwt_verify _) as [decoded|e]; [|done].
  destruct (User_findById decoded) as [[found|]|e]; try done.
  by destruct (negb (Http.isActive found)).
Qed.

Lemma scheme_ignored_witness :
  outcomeView
    (Http.authenticateToken SampleHttp.jwt_verify SampleHttp.User_findById
       SampleHttp.isJsonWebTokenError SampleHttp.isTokenExpiredError
       (SampleHttp.request "Bearer good"))
  = outcomeView
      (Http.authenticateToken SampleHttp.jwt_verify SampleHttp.User_findById
         SampleHttp.isJsonWebTokenError SampleHttp.isTokenExpiredError
         (SampleHttp.request "Basic good")).
Proof.
  apply (scheme_ignored SampleHttp.jwt_verify SampleHttp.User_findById
           SampleHttp.isJsonWebTokenError SampleHttp.isTokenExpiredError
           "Bearer" "Basic" "good" None Sample.input); reflexivity.
Defined.

Lemma authenticateToken_outcomes {B E Decoded}
    (jwt_verify : string → Http.Attempt E Decoded)
    (User_findById : Decoded → Http.Attempt E (option Http.User))
    (isJsonWebTokenError isTokenExpiredError : E → bool)
    (req : Http.Request B) :
  let authenticate :=
    Http.authenticateToken jwt_verify User_findById isJsonWebTokenError
      isTokenExpiredError in
  (∀ req', authenticate req = Http.Next req'
           ↔ ∃ token decoded u,
               Http.tokenOf (Http.authorization req) = Some token
               ∧ token ≠ EmptyString
               ∧ jwt_verify token = Http.Returned decoded
               ∧ User_findById decoded = Http.Returned (Some u)
               ∧ Http.isActive u = true
               ∧ req' = {| Http.authorization := Http.authorization req;
                           Http.user := Some u;
                           Http.body := Http.body req |})
  ∧ ∀ res, authenticate req = Http.Respond res →
           Http.status res = 401
           ∨ (Http.status res = 500
              ∧ ∃ e, ((∃ token, jwt_verify token = Http.Thrown e)
                      ∨ (∃ decoded, User_findById decoded = Http.Thrown e))
                     ∧ isJsonWebTokenError e = false
                     ∧ isTokenExpiredError e = false).
Proof.
  unfold Http.authenticateToken, Http.authenticationError. split.
  - intros req'.
    destruct (Http.tokenOf (Http.authorization req)) as [[|c token]|].
    + split; [done|]. by intros (? & ? & ? & [= <-] & ? & _).
    + destruct (jwt_verify (String c token)) as [decoded|e] eqn:Hv.
      * destruct (User_findById decoded) as [[u|]|e] eqn:Hf.
        -- destruct (Http.isActive u) eqn:Ha; simpl.
           ++ split.
              ** intros [= <-]. by exists (String c token), decoded, u.
              ** intros (? & ? & ? & [= <-] & _ & Hv' & Hf' & _ & ->).
                 rewrite Hv in Hv'. injection Hv' as <-.
                 rewrite Hf in Hf'. by injection Hf' as <-.
           ++ split; [done|].
              intros (? & ? & ? & [= <-] & _ & Hv' & Hf' & Ha' & _).
              rewrite Hv in Hv'. injection Hv' as <-.
              rewrite Hf in Hf'. injection Hf' as <-. congruence.
        -- split; [done|].
           intros (? & ? & ? & [= <-] & _ & Hv' & Hf' & _).
           rewrite Hv in Hv'. injection Hv' as <-. congruence.
        -- split; [done|].
           intros (? & ? & ? & [= <-] & _ & Hv' & Hf' & _).
           rewrite Hv in Hv'. injection Hv' as <-. congruence.
      * split; [done|].
        intros (? & ? & ? & [= <-] & _ & Hv' & _). congruence.
    + split; [done|]. by intros (? & ? & ? & ? & _).
  - intros res.
    destruct (Http.tokenOf (Http.authorization req)) as [[|c token]|];
      [by intros [= <-]; left| |by intros [= <-]; left].
    assert (∀ e : E,
              (∃ token, jwt_verify token = Http.Thrown e)
              ∨ (∃ decoded, User_findById decoded = Http.Thrown e) →
              Http.status
                (if isJsonWebTokenError e
                 then {| Http.status := 401;
                         Http.json := Http.Failure "Invalid token" |}
                 else if isTokenExpiredError e
                 then {| Http.status := 401;
                         Http.json := Http.Failure "Token expired" |}
                 else {| Http.status := 500;
                         Http.json := Http.Failure "Authentication error" |})
              = 401
              ∨ Http.status
                  (if isJsonWebTokenError e
                   then {| Http.status := 401;
                           Http.json := Http.Failure "Invalid token" |}
                   else if isTokenExpiredError e
                   then {| Http.status := 401;
                           Http.json := Http.Failure "Token expired" |}
                   else {| Http.status := 500;
                           Http.json := Http.Failure "Authentication error" |})
                = 500
                ∧ ∃ e, ((∃ token, jwt_verify token = Http.Thrown e)
                        ∨ (∃ decoded, User_findById decoded = Http.Thrown e))
                       ∧ isJsonWebTokenError e = false
                       ∧ isTokenExpiredError e = false) as Herr.
    { intros e He. destruct (isJsonWebTokenError e) eqn:HJ; [by left|].
      destruct (isTokenExpiredError e) eqn:HT; [by left|].
      right. split; [done|]. by exists e. }
    destruct (jwt_verify (String c token)) as [decoded|e] eqn:Hv;
      [|intros [= <-]; apply Herr; left; by eexists].
    destruct (User_findById decoded) as [[u|]|e] eqn:Hf;
      [|by intros [= <-]; left
       |intros [= <-]; apply Herr; right; by eexists].
    destruct (negb (Http.isActive u)); [by intros [= <-]; left | done].
Qed.

(** X25. [authenticateToken] passes a request on exactly when its token
    is verified and the user found for it is active, and then with that
    user attached and nothing else changed; any other answer is a 401, or
    a 500 for an error that is neither of the two token errors. *)
Theorem authenticated_means_active {B E Decoded}
    (jwt_verify : string → Http.Attempt E Decoded)
    (User_findById : Decoded → Http.Attempt E (option Http.User))
    (isJsonWebTokenError isTokenExpiredError : E → bool)
    (req : Http.Request B) :
  let authenticate :=
    Http.authenticateToken jwt_verify User_findById isJsonWebTokenError
      isTokenExpiredError in
  (∀ req', authenticate req = Http.Next req'
           ↔ ∃ token decoded u,
               Http.tokenOf (Http.authorization req) = Some token
               ∧ token ≠ EmptyString
               ∧ jwt_verify token = Http.Returned decoded
               ∧ User_findById decoded = Http.Returned (Some u)
               ∧ Http.isActive u = true
               ∧ req' = {| Http.authorization := Http.authorization req;
                           Http.user := Some u;
                           Http.body := Http.body req |})
  ∧ ∀ res, authenticate req = Http.Respond res →
           Http.status res = 401
           ∨ (Http.status res = 500
              ∧ ∃ e, ((∃ token, jwt_verify token = Http.Thrown e)
                      ∨ (∃ decoded, User_findById decoded = Http.Thrown e))
                     ∧ isJsonWebTokenError e = false
                     ∧ isTokenExpiredError e = false).
Proof.
  apply authenticateToken_outcomes.
Qed.

Lemma authenticated_means_active_witness :
  ∃ token decoded u,
    Http.tokenOf (Http.authorization (SampleHttp.request "Bearer good"))
    = Some token
    ∧ token ≠ EmptyString
    ∧ SampleHttp.jwt_verify token = Http.Returned decoded
    ∧ SampleHttp.User_findById decoded = Http.Returned (Some u)
    ∧ Http.isActive u = true
    ∧ {| Http.authorization := Some "Bearer good"%string;
         Http.user := Some SampleHttp.manager;
         Http.body := Sample.input |}
      = {| Http.authorization :=
             Http.authorization (SampleHttp.request "Bearer good");
           Http.user := Some u;
           Http.body := Http.body (SampleHttp.request "Bearer good") |}.
Proof.
  destruct (authenticated_means_active SampleHttp.jwt_verify
              SampleHttp.User_findById SampleHttp.isJsonWebTokenError
              SampleHttp.isTokenExpiredError
              (SampleHttp.request "Bearer good")) as [H _].
  apply H. vm_compute. reflexivity.
Defined.

(** ** The handler and the whole route *)

Lemma authorizeRoles_Respond {B} roles (req : Http.Request B) res :
  Http.authorizeRoles roles req = Http.Respond res →
  Http.status res = 401 ∨ Http.status res = 403.
Proof.
  unfold Http.authorizeRoles. destruct (Http.user req) as [u|].
  - destruct (negb _); [|done]. intros [= <-]. by right.
  - intros [= <-]. by left.
Qed.

(** X27. The route answers 200 or 400 only to a request whose token is
    verified and belongs to an active user whose role is "manager" or
    "admin": nobody else has a simulation run, or learns what the schema
    thinks of a body. *)
Theorem run_only_for_managers {B E Decoded}
    (jwt_verify : string → Http.Attempt E Decoded)
    (User_findById : Decoded → Http.Attempt E (option Http.User))
    (isJsonWebTokenError isTokenExpiredError : E → bool)
    (validate : B → string + SimulationInput) w (req : Http.Request B) :
  let res :=
    Http.postRun jwt_verify User_findById isJsonWebTokenError
      isTokenExpiredError validate w req in
  Http.status res = 200 ∨ Http.status res = 400 →
  ∃ token decoded u,
    Http.tokenOf (Http.authorization req) = Some token
    ∧ jwt_verify token = Http.Returned decoded
    ∧ User_findById decoded = Http.Returned (Some u)
    ∧ Http.isActive u = true
    ∧ (Http.role u = "manager"%string ∨ Http.role u = "admin"%string).
Proof.
  intros res Hstatus. subst res. unfold Http.postRun in Hstatus.
  destruct (authenticateToken_outcomes jwt_verify User_findById
              isJsonWebTokenError isTokenExpiredError req) as [Hnext Hres].
  destruct (Http.authenticateToken _ _ _ _ req) as [res|req1] eqn:Hauth.
  { destruct (Hres res eq_refl) as [H | [H _]]; rewrite H in Hstatus;
      by destruct Hstatus. }
  destruct (proj1 (Hnext req1) eq_refl)
    as (token & decoded & u & Htok & _ & Hv & Hf & Ha & ->).
  exists token, decoded, u. do 4 (split; [done|]).
  destruct (Http.requireManager _) as [res|req2] eqn:Hrole.
  { apply authorizeRoles_Respond in Hrole.
    destruct Hrole as [H | H]; rewrite H in Hstatus; by destruct Hstatus. }
  apply authorizeRoles_Next in Hrole as [_ (u' & [= <-] & Hin)].
  by rewrite elem_of_cons, list_elem_of_singleton in Hin.
Qed.

Lemma run_only_for_managers_witness :
  ∃ token decoded u,
    Http.tokenOf (Http.authorization (SampleHttp.request "Bearer good"))
    = Some token
    ∧ SampleHttp.jwt_verify token = Http.Returned decoded
    ∧ SampleHttp.User_findById decoded = Http.Returned (Some u)
    ∧ Http.isActive u = true
    ∧ (Http.role u = "manager"%string ∨ Http.role u = "admin"%string).
Proof.
  apply (run_only_for_managers SampleHttp.jwt_verify SampleHttp.User_findById
           SampleHttp.isJsonWebTokenError SampleHttp.isTokenExpiredError
           SampleHttp.validate Sample.world
           (SampleHttp.request "Bearer good")).
  left. vm_compute. reflexivity.
Defined.

(** * The engine in double precision *)

(** ** The order of the numbers *)

Section FloatOrder.
Import PrimFloat SpecFloat FloatOps FloatAxioms.

Ltac SF_cases :=
  unfold SFltb, SFleb, SFeqb, SFcompare;
  repeat match goal with
  | x : spec_float |- _ => destruct x as [[]|[]| |[] ? ?]
  end;
  simpl; try done;
  repeat match goal with
  | |- context [Z.compare ?a ?b] =>
      destruct (Z.compare_spec a b); subst; simpl; try done; try lia
  | H : context [Z.compare ?a ?b] |- _ =>
      destruct (Z.compare_spec a b); subst; simpl in *; try done; try lia
  | |- context [Pos.compare_cont Eq ?a ?b] =>
      change (Pos.compare_cont Eq a b) with (Pos.compare a b);
      destruct (Pos.compare_spec a b); subst; simpl; try done; try lia
  | H : context [Pos.compare_cont Eq ?a ?b] |- _ =>
      change (Pos.compare_cont Eq a b) with (Pos.compare a b) in H;
      destruct (Pos.compare_spec a b); subst; simpl in *; try done; try lia
  end.

Lemma SFltb_trans x y z :
  SFltb x y = true → SFltb y z = true → SFltb x z = true.
Proof. SF_cases. Qed.

Lemma SFltb_cotrans x y z :
  SFltb x z = true → y ≠ S754_nan → SFltb x y = true ∨ SFltb y z = true.
Proof. SF_cases; intros; auto. Qed.

Lemma SFltb_asym x y :
  SFltb y x = true → SFltb x y = false ∧ SFleb x y = false.
Proof. SF_cases; intros; auto. Qed.

Lemma SFltb_total x y :
  x ≠ S754_nan → y ≠ S754_nan → SFltb x y = false → SFleb y x = true.
Proof. SF_cases; intros; auto. Qed.

Lemma SFeqb_refl x : SFeqb x x = true ↔ x ≠ S754_nan.
Proof. SF_cases; intros; split; auto. Qed.

Lemma SFltb_nan_r x : SFltb x S754_nan = false ∧ SFleb x S754_nan = false.
Proof. SF_cases; auto. Qed.

Lemma SFltb_nan_l x : SFltb S754_nan x = false.
Proof. SF_cases; auto. Qed.

Lemma float_is_nan_spec x : is_nan x = true ↔ Prim2SF x = S754_nan.
Proof.
  unfold is_nan. rewrite eqb_spec, negb_true_iff, <- not_true_iff_false.
  rewrite SFeqb_refl. destruct (Prim2SF x); intuition congruence.
Qed.

Lemma float_is_nan_false x : is_nan x = false ↔ Prim2SF x ≠ S754_nan.
Proof. rewrite <- float_is_nan_spec. by destruct (is_nan x). Qed.

(** [<] is transitive, and a number that is not [NaN] is above the
    smaller or below the greater of two numbers in this order. *)
Lemma float_ltb_trans x y z :
  (x <? y)%float = true → (y <? z)%float = true → (x <? z)%float = true.
Proof. rewrite !ltb_spec. apply SFltb_trans. Qed.

Lemma float_ltb_cotrans x y z :
  (x <? z)%float = true → is_nan y = false →
  (x <? y)%float = true ∨ (y <? z)%float = true.
Proof. rewrite !ltb_spec, float_is_nan_false. apply SFltb_cotrans. Qed.

Lemma float_ltb_asym x y :
  (y <? x)%float = true →
  (x <? y)%float = false ∧ (x <=? y)%float = false.
Proof. rewrite !ltb_spec, leb_spec. apply SFltb_asym. Qed.

Lemma float_ltb_total x y :
  is_nan x = false → is_nan y = false →
  (x <? y)%float = false → (y <=? x)%float = true.
Proof. rewrite !ltb_spec, leb_spec, !float_is_nan_false. apply SFltb_total. Qed.

(** No comparison holds of [NaN]. *)
Lemma float_ltb_nan_r x y :
  is_nan y = true → (x <? y)%float = false ∧ (x <=? y)%float = false.
Proof.
  rewrite ltb_spec, leb_spec, float_is_nan_spec. intros ->. apply SFltb_nan_r.
Qed.

Lemma float_ltb_nan_l x y : is_nan x = true → (x <? y)%float = false.
Proof. rewrite ltb_spec, float_is_nan_spec. intros ->. apply SFltb_nan_l. Qed.

Lemma float_ltb_number x y :
  (x <? y)%float = true → is_nan x = false ∧ is_nan y = false.
Proof.
  intros H. split.
  - destruct (is_nan x) eqn:E; [|done]. by rewrite (float_ltb_nan_l x y E) in H.
  - destruct (is_nan y) eqn:E; [|done].
    by rewrite (proj1 (float_ltb_nan_r x y E)) in H.
Qed.

Lemma float_ltb_irrefl x : (x <? x)%float = false.
Proof.
  destruct (x <? x)%float eqn:E; [|done].
  destruct (float_ltb_asym x x E) as [H _]. congruence.
Qed.

(** A score is [NaN] or above the [-1] that [bestScore] starts from. *)
Lemma Math_max_0_above x :
  is_nan (Double.Math_max 0%float x) = false →
  Double.gtb (Double.Math_max 0%float x) (-1)%float = true.
Proof.
  unfold Double.Math_max, Double.gtb.
  change (is_nan 0%float) with false. cbn [orb].
  destruct (is_nan x) eqn:Hx; [by vm_compute|]. intros _.
  destruct (0 <? x)%float eqn:Hpos.
  - eapply float_ltb_trans; [|exact Hpos]. by vm_compute.
  - change (get_sign 0%float) with false.
    by destruct (x <? 0)%float; vm_compute.
Qed.

End FloatOrder.

(** ** The sort by deadline *)

Lemma Double_sort_insert_sorted x l :
  StronglySorted Double.deadlineLe l →
  StronglySorted Double.deadlineLe (sort_insert Double.compareDeadline x l).
Proof.
  induction 1 as [|y l Hl IH Hy]; simpl.
  - repeat constructor.
  - unfold Double.compareDeadline at 1.
    destruct (Z.leb_spec
                (Double.Order.deliveryTimestamp x
                 - Double.Order.deliveryTimestamp y) 0) as [Hle | Hgt].
    + constructor; [by constructor|].
      constructor; [unfold Double.deadlineLe; lia|].
      eapply Forall_impl; [exact Hy|]. unfold Double.deadlineLe. intros; lia.
    + constructor; [done|].
      rewrite sort_insert_Permutation. constructor; [|done].
      unfold Double.deadlineLe. lia.
Qed.

Lemma Double_sort_sorted l :
  StronglySorted Double.deadlineLe (Array_sort Double.compareDeadline l).
Proof.
  induction l as [|x l IH]; simpl; [constructor|].
  by apply Double_sort_insert_sorted.
Qed.

Lemma Double_sort_insert_filter d x l :
  StronglySorted Double.deadlineLe l →
  List.filter (Double.hasDeadline d) (sort_insert Double.compareDeadline x l)
  = List.filter (Double.hasDeadline d) (x :: l).
Proof.
  induction 1 as [|y l Hl IH Hy]; [done|].
  cbn [sort_insert]. unfold Double.compareDeadline at 1.
  destruct (Z.leb_spec
              (Double.Order.deliveryTimestamp x
               - Double.Order.deliveryTimestamp y) 0) as [Hle | Hgt]; [done|].
  cbn [List.filter] in *. rewrite IH. unfold Double.hasDeadline.
  destruct (Z.eqb_spec (Double.Order.deliveryTimestamp y) d),
           (Z.eqb_spec (Double.Order.deliveryTimestamp x) d); try done.
  lia.
Qed.

Lemma Double_sort_stable d l :
  List.filter (Double.hasDeadline d) (Array_sort Double.compareDeadline l)
  = List.filter (Double.hasDeadline d) l.
Proof.
  induction l as [|x l IH]; [done|].
  cbn [Array_sort foldr]. fold (Array_sort Double.compareDeadline l).
  rewrite Double_sort_insert_filter by apply Double_sort_sorted.
  cbn [List.filter]. by rewrite IH.
Qed.

(** ** The choice of a driver *)

Lemma lookup_snoc_inv {A} (l : list A) (x y : A) k :
  (l ++ [x]) !! k = Some y → l !! k = Some y ∨ (k = length l ∧ y = x).
Proof.
  intros Hk. destruct (decide (k < length l)%nat) as [Hlt | Hge].
  - left. by rewrite lookup_app_l in Hk.
  - right. rewrite lookup_app_r in Hk by lia.
    destruct (k - length l)%nat as [|n] eqn:En; simpl in Hk; [|done].
    split; [lia | congruence].
Qed.

Section DoubleFindBest.
Import PrimFloat.
Variables (route : Double.Route.t) (maxHours : Double.number)
  (st : Double.JSDate.Date).

Lemma Double_bestOf_step seen a best :
  Double.bestOf route maxHours st seen best →
  Double.bestOf route maxHours st (seen ++ [a])
    (if Double.canDriverHandleOrder a route maxHours st then
       if Double.gtb (Double.calculateDriverScore a route) best.2
       then (Some (length seen), Double.calculateDriverScore a route)
       else best
     else best).
Proof.
  intros Hbest.
  destruct (Double.canDriverHandleOrder a route maxHours st) eqn:Hcan;
    [destruct (Double.gtb _ _) eqn:Hgt|].
  - (* [a] beats the best so far *)
    unfold Double.gtb in Hgt.
    destruct (float_ltb_number _ _ Hgt) as [_ Hnum].
    unfold Double.bestOf; simpl. split.
    + exists a. split; [by rewrite list_lookup_middle|].
      do 2 (split; [done|]).
      intros k a' Hk Hcan'.
      apply lookup_snoc_inv in Hk as [Hk | [-> ->]].
      * assert (is_nan (Double.calculateDriverScore a' route) = true
                ∨ (Double.calculateDriverScore a' route
                   <? Double.calculateDriverScore a route)%float = true)
          as [Hnan | Hlt].
        { unfold Double.bestOf in Hbest. destruct (best.1) as [j|].
          - destruct Hbest as [(b & Hb & _ & _ & Hall) (b' & Hb' & Hbest)].
            assert (b' = b) as -> by congruence.
            destruct (Hall k a' Hk Hcan') as [Hnlt _].
            destruct (is_nan (Double.calculateDriverScore a' route))
              eqn:Hnan; [by left | right].
            rewrite Hbest in Hgt.
            destruct (float_ltb_cotrans _ _ _ Hgt Hnan); [congruence | done].
          - destruct Hbest as [_ Hnone]. left. by apply (Hnone k). }
        -- by destruct (float_ltb_nan_r (Double.calculateDriverScore a route)
                          _ Hnan).
        -- by destruct (float_ltb_asym _ _ Hlt).
      * split; [apply float_ltb_irrefl | lia].
    + exists a. split; [by rewrite list_lookup_middle | done].
  - (* [a] does not beat it *)
    unfold Double.bestOf in *. destruct (best.1) as [j|].
    + destruct Hbest as [(b & Hb & Hcanb & Hnumb & Hall) (b' & Hb' & Hbest)].
      assert (b' = b) as -> by congruence.
      split; [|exists b; split; [by apply lookup_app_l_Some | done]].
      exists b. split; [by apply lookup_app_l_Some|].
      do 2 (split; [done|]).
      intros k a' Hk Hcan'.
      apply lookup_snoc_inv in Hk as [Hk | [-> ->]]; [by apply Hall|].
      apply lookup_lt_Some in Hb. unfold Double.gtb in Hgt.
      rewrite Hbest in Hgt. split; [done | lia].
    + destruct Hbest as [Hb Hnone]. split; [done|].
      intros k a' Hk Hcan'.
      apply lookup_snoc_inv in Hk as [Hk | [-> ->]]; [by apply (Hnone k)|].
      destruct (is_nan (Double.calculateDriverScore a route)) eqn:Hnan; [done|].
      assert (Double.gtb (Double.calculateDriverScore a route) (-1)%float
              = true) as Habove
        by (apply Math_max_0_above; exact Hnan).
      rewrite Hb in Hgt. congruence.
  - (* [a] cannot take the order *)
    unfold Double.bestOf in *. destruct (best.1) as [j|].
    + destruct Hbest as [(b & Hb & Hcanb & Hnumb & Hall) (b' & Hb' & Hbest)].
      split; [|exists b'; split; [by apply lookup_app_l_Some | done]].
      exists b. split; [by apply lookup_app_l_Some|].
      do 2 (split; [done|]).
      intros k a' Hk Hcan'.
      apply lookup_snoc_inv in Hk as [Hk | [-> ->]]; [by apply Hall|].
      congruence.
    + destruct Hbest as [Hb Hnone]. split; [done|].
      intros k a' Hk Hcan'.
      apply lookup_snoc_inv in Hk as [Hk | [-> ->]]; [by apply (Hnone k)|].
      congruence.
Qed.

Lemma Double_findBestDriver_bestOf rest seen best :
  Double.bestOf route maxHours st seen best →
  Double.bestOf route maxHours st (seen ++ rest)
    (Double.findBestDriver rest (length seen) route maxHours st best).
Proof.
  revert seen best. induction rest as [|a rest IH]; intros seen best Hbest.
  - by rewrite app_nil_r.
  - cbn [Double.findBestDriver]. rewrite cons_middle, app_assoc.
    replace (S (length seen)) with (length (seen ++ [a]))
      by (rewrite length_app; simpl; lia).
    apply IH. by apply Double_bestOf_step.
Qed.

Lemma Double_findBestDriver_spec assignments :
  Double.bestOf route maxHours st assignments
    (Double.findBestDriver assignments 0%nat route maxHours st
       (None, (-1)%float)).
Proof.
  apply (Double_findBestDriver_bestOf assignments []).
  split; [done|]. intros k a Hk. done.
Qed.
End DoubleFindBest.

(** ** The assignment loop *)

Lemma alter_as_insert {A} (f : A → A) (l : list A) j a :
  l !! j = Some a → alter f j l = <[j := f a]> l.
Proof.
  revert j. induction l as [|x l IH]; intros [|j] Hj; try done.
  - by injection Hj as ->.
  - simpl in *. f_equal. by apply IH.
Qed.

Section DoubleAssignLoop.
Import PrimFloat.
Variables (routeMap : gmap string Double.Route.t) (maxHours : Double.number)
  (st : Double.JSDate.Date).

(** An iteration for an order whose route is known: the chosen driver
    gets the order, and nothing changes when no driver can be chosen. *)
Lemma Double_assignOrder_spec assignments order route :
  routeMap !! Double.Order.assignedRoute order = Some route →
  (∃ j a,
     assignments !! j = Some a
     ∧ Double.chosenDriver route maxHours st assignments j
     ∧ Double.assignOrder routeMap maxHours st assignments order
       = <[j := Double.assignTo order route a]> assignments)
  ∨ ((∀ k a, assignments !! k = Some a →
        Double.canDriverHandleOrder a route maxHours st = true →
        is_nan (Double.calculateDriverScore a route) = true)
     ∧ Double.assignOrder routeMap maxHours st assignments order
       = assignments).
Proof.
  intros Hr. unfold Double.assignOrder. rewrite Hr.
  pose proof (Double_findBestDriver_spec route maxHours st assignments)
    as Hbest.
  unfold Double.bestOf in Hbest. cbn zeta in *.
  destruct (Double.findBestDriver _ _ _ _ _ _).1 as [j|].
  - left. destruct Hbest as [Hchosen (a & Hj & _)].
    exists j, a. do 2 (split; [done|]). by apply alter_as_insert.
  - right. by destruct Hbest as [_ Hnone].
Qed.

(** An iteration leaves the assignments alone, or applies [assignTo] to
    one driver who can take the order. *)
Lemma Double_assignOrder_cases assignments order :
  Double.assignOrder routeMap maxHours st assignments order = assignments
  ∨ ∃ route j a,
      routeMap !! Double.Order.assignedRoute order = Some route
      ∧ assignments !! j = Some a
      ∧ Double.canDriverHandleOrder a route maxHours st = true
      ∧ Double.assignOrder routeMap maxHours st assignments order
        = <[j := Double.assignTo order route a]> assignments.
Proof.
  destruct (routeMap !! Double.Order.assignedRoute order) as [route|] eqn:Hr.
  - destruct (Double_assignOrder_spec assignments order route Hr)
      as [(j & a & Hj & (a' & Hj' & Hcan & _) & Heq) | [_ Heq]]; [|by left].
    right. exists route, j, a. assert (a' = a) as -> by congruence. done.
  - left. unfold Double.assignOrder. by rewrite Hr.
Qed.

Lemma Double_assignLoop_Forall (P : Double.DriverAssignment → Prop)
    orders assignments :
  (∀ order route a,
     order ∈ orders →
     routeMap !! Double.Order.assignedRoute order = Some route →
     Double.canDriverHandleOrder a route maxHours st = true →
     P a → P (Double.assignTo order route a)) →
  Forall P assignments →
  Forall P
    (fold_left (Double.assignOrder routeMap maxHours st) orders assignments).
Proof.
  revert assignments.
  induction orders as [|order orders IH]; intros assignments Hstep HP; [done|].
  simpl. apply IH.
  - intros o route a Ho. apply Hstep. by right.
  - destruct (Double_assignOrder_cases assignments order)
      as [-> | (route & j & a & Hr & Hj & Hcan & ->)]; [done|].
    apply Forall_insert; [done|].
    eapply Hstep; [left | done | done |].
    eapply Forall_lookup_1; [exact HP | exact Hj].
Qed.
End DoubleAssignLoop.

Section DoubleProperties.
Import PrimFloat.
#[local] Set Warnings "-inexact-float".

Lemma Double_orderOfId_elem orders o :
  NoDup (map Double.Order.orderId orders) → o ∈ orders →
  Double.orderOfId orders (Double.Order.orderId o) = Some o.
Proof.
  unfold Double.orderOfId. induction orders as [|x orders IH]; intros Hnd Ho.
  - by apply elem_of_nil in Ho.
  - simpl in *. apply NoDup_cons in Hnd as [Hx Hnd].
    case_bool_decide as Heq.
    + apply elem_of_cons in Ho as [-> | Ho]; [done|].
      exfalso. apply Hx. rewrite Heq. by apply list_elem_of_fmap_2.
    + apply elem_of_cons in Ho as [-> | Ho]; [done|]. by apply IH.
Qed.

Lemma Double_routeOfOrderId_elem routes orders o route :
  NoDup (map Double.Order.orderId orders) → o ∈ orders →
  Double.routeMapOf routes !! Double.Order.assignedRoute o = Some route →
  Double.routeOfOrderId routes orders (Double.Order.orderId o) = Some route.
Proof.
  intros Hnd Ho Hr. unfold Double.routeOfOrderId.
  by rewrite (Double_orderOfId_elem _ _ Hnd Ho).
Qed.

(** The totals of an assignment are the running sums over its list. *)
Lemma Double_running_totals drivers orders routes st maxHours a :
  NoDup (map Double.Order.orderId orders) →
  a ∈ Double.assignOrdersToDrivers drivers orders routes st maxHours →
  Double.totalHours a
  = Double.runningHours routes orders (Double.assignedOrders a)
  ∧ Double.totalDistance a
    = Double.runningDistance routes orders (Double.assignedOrders a).
Proof.
  intros Hnd. revert a. apply Forall_forall.
  unfold Double.assignOrdersToDrivers. apply Double_assignLoop_Forall.
  - intros order route a Ho Hr Hcan (Hsum & Hdist).
    apply Array_sort_elem_of in Ho.
    pose proof (Double_routeOfOrderId_elem _ _ _ _ Hnd Ho Hr) as Hroute.
    unfold Double.runningHours, Double.runningDistance. simpl.
    rewrite !fold_left_app. simpl. rewrite Hroute.
    fold (Double.runningHours routes orders (Double.assignedOrders a)).
    fold (Double.runningDistance routes orders (Double.assignedOrders a)).
    by rewrite <- Hsum, <- Hdist.
  - apply Forall_forall. intros a Ha.
    apply list_elem_of_fmap in Ha as (d & -> & _). by simpl.
Qed.





(** ** Results per order *)

(** C2. In the result of [calculateOrderResults], the entry of every
    order is on time exactly when the time of delivery is not after the
    deadline, and has the fuel cost of the order's route, a penalty of 50
    when the delivery is late and 0 when it is on time, as bonus the
    rounded product of the order's value and 0.1 when this value is above
    1000 and the delivery is on time and 0 otherwise, and as profit the
    value plus the bonus less the penalty less the fuel cost, each
    operation rounded to double precision. *)
Theorem order_economics tz orders routes assignments st rs :
  Double.calculateOrderResults tz orders routes assignments st = Ok rs →
  Forall2
    (λ order r,
       ∃ route,
         Double.routeMapOf routes !! Double.Order.assignedRoute order
         = Some route
         ∧ (Double.deliveryStatus r = OnTime
            ↔ Double.JSDate.le
                (Double.calculateDeliveryTime tz st route
                   (from_option Double.isFatigued false
                      (List.find
                         (λ d, includes (Double.assignedOrders d)
                                 (Double.Order.orderId order))
                         assignments)))
                (Some (Double.Order.deliveryTimestamp order)) = true)
         ∧ Double.fuelCost r = Double.Route.fuelCost route
         ∧ Double.penalty r
           = match Double.deliveryStatus r with
             | OnTime => 0
             | Late => 50
             end%float
         ∧ Double.bonus r
           = match Double.deliveryStatus r with
             | OnTime =>
                 if Double.gtb (Double.Order.value order) 1000
                 then Double.Order.value order * 0.1 else 0
             | Late => 0
             end%float
         ∧ Double.profit r
           = (Double.Order.value order + Double.bonus r - Double.penalty r
              - Double.fuelCost r)%float)
    orders rs.
Proof.
  unfold Double.calculateOrderResults. intros Hrs. apply mapM_Ok in Hrs.
  eapply Forall2_impl; [exact Hrs|]. intros order r Hr. cbn beta in Hr.
  unfold Double.orderResult in Hr.
  destruct (Double.routeMapOf routes !! Double.Order.assignedRoute order)
    as [route|]; [|done].
  injection Hr as <-. exists route. cbn zeta.
  set (isOnTime := Double.JSDate.le _ _). clearbody isOnTime.
  cbn [Double.deliveryStatus Double.fuelCost Double.penalty Double.bonus
       Double.profit].
  destruct isOnTime; rewrite ?andb_true_r, ?andb_false_r;
    by repeat split.
Qed.

Lemma order_economics_witness :
  Forall2
    (λ order r,
       ∃ route,
         Double.routeMapOf [Double.Sample.routeR001]
           !! Double.Order.assignedRoute order
         = Some route
         ∧ (Double.deliveryStatus r = OnTime
            ↔ Double.JSDate.le
                (Double.calculateDeliveryTime Double.Sample.utc
                   Double.Sample.start route
                   (from_option Double.isFatigued false
                      (List.find
                         (λ d, includes (Double.assignedOrders d)
                                 (Double.Order.orderId order))
                         [Double.Sample.assignment])))
                (Some (Double.Order.deliveryTimestamp order)) = true)
         ∧ Double.fuelCost r = Double.Route.fuelCost route
         ∧ Double.penalty r
           = match Double.deliveryStatus r with
             | OnTime => 0
             | Late => 50
             end%float
         ∧ Double.bonus r
           = match Double.deliveryStatus r with
             | OnTime =>
                 if Double.gtb (Double.Order.value order) 1000
                 then Double.Order.value order * 0.1 else 0
             | Late => 0
             end%float
         ∧ Double.profit r
           = (Double.Order.value order + Double.bonus r - Double.penalty r
              - Double.fuelCost r)%float)
    [Double.Sample.orderO001] [Double.Sample.result].
Proof.
  apply (order_economics Double.Sample.utc [Double.Sample.orderO001]
           [Double.Sample.routeR001] [Double.Sample.assignment]
           Double.Sample.start [Double.Sample.result]).
  vm_compute. reflexivity.
Defined.

(** The bonus is not a tenth of the value and the profit is not the sum
    of its terms: for a value of 1001, on time, on a route of fuel cost
    125, the bonus is 100.10000000000001 and the profit
    976.0999999999999. *)
Lemma order_economics_counterexample :
  ∃ r,
    Double.calculateOrderResults Double.Sample.utc [Double.Sample.order1001]
      [Double.Sample.routeR001] [Double.Sample.assignment]
      Double.Sample.start
    = Ok [r]
    ∧ Double.deliveryStatus r = OnTime
    ∧ match
        Double.toQ (Double.bonus r), Double.toQ (Double.profit r),
        Double.toQ (Double.fuelCost r)
      with
      | Some bonus, Some profit, Some fuelCost =>
          ¬ (bonus == 1001 * (1 # 10))%Q
          ∧ ¬ (profit == 1001 + bonus - 0 - fuelCost)%Q
          ∧ ¬ (profit == 1001 + 1001 * (1 # 10) - 0 - fuelCost)%Q
      | _, _, _ => False
      end.
Proof.
  eexists. split; [vm_compute; reflexivity|].
  split; [reflexivity|]. vm_compute. repeat split; discriminate.
Qed.

(** ** The rule of assignment *)

(** The rule names one driver at most. *)
Lemma Double_chosenDriver_unique route maxHours st assignments i j :
  Double.chosenDriver route maxHours st assignments i →
  Double.chosenDriver route maxHours st assignments j →
  i = j.
Proof.
  assert (Hlt : ∀ i j, (i < j)%nat →
            Double.chosenDriver route maxHours st assignments i →
            Double.chosenDriver route maxHours st assignments j → False).
  { clear i j. intros i j Hij (a & Ha & Hcana & Hnuma & Halla)
      (b & Hb & Hcanb & Hnumb & Hallb).
    destruct (Halla j b Hb Hcanb) as [H1 _].
    destruct (Hallb i a Ha Hcana) as [_ H2]. specialize (H2 Hij).
    pose proof (float_ltb_total _ _ Hnuma Hnumb H1). congruence. }
  intros Hi Hj. destruct (Nat.lt_total i j) as [H | [-> | H]]; [|done|].
  - destruct (Hlt i j H Hi Hj).
  - destruct (Hlt j i H Hj Hi).
Qed.

Lemma Double_calculateDriverScore_formula a route :
  Double.calculateDriverScore a route = Double.scoreFormula a.
Proof.
  unfold Double.calculateDriverScore, Double.scoreFormula.
  by destruct (Double.isFatigued a).
Qed.

Lemma Double_canDriverHandleOrder_spec a route maxHours st :
  Double.canDriverHandleOrder a route maxHours st
  = negb (Double.gtb
            (Double.totalHours a + Double.Route.adjustedTime route / 60)%float
            maxHours).
Proof.
  unfold Double.canDriverHandleOrder.
  by destruct (Double.gtb (Double.totalHours a + _)%float maxHours).
Qed.

(** C3. [assignOrdersToDrivers] runs its loop over the orders sorted by
    deadline, ascending, orders of one deadline keeping their relative
    order.  The score of a driver is
    [100 - (30 if isFatigued) - assignedOrders.length * 5
     - totalDistance * 0.1] floored at 0, each operation rounded to double
    precision, and a driver can take an order when
    [totalHours + adjustedTime / 60], rounded likewise, is not greater
    than the cap.  An iteration for an order of known route picks the
    driver that can take the order and has the highest score, the first
    such driver in input order, a score that is [NaN] never winning; this
    driver gets the id of the order at the end of its list, the hours of
    the route added to its hours and the distance of the route to its
    distance, and no other assignment changes.  When no driver can be
    picked nothing changes. *)
Theorem assignment_rule drivers orders routes st maxHours :
  let sortedOrders := Array_sort Double.compareDeadline orders in
  (StronglySorted Double.deadlineLe sortedOrders
   ∧ sortedOrders ≡ₚ orders
   ∧ ∀ d, List.filter (Double.hasDeadline d) sortedOrders
          = List.filter (Double.hasDeadline d) orders)
  ∧ Double.assignOrdersToDrivers drivers orders routes st maxHours
    = fold_left (Double.assignOrder (Double.routeMapOf routes) maxHours st)
        sortedOrders (map Double.initialAssignment drivers)
  ∧ (∀ a route,
       Double.calculateDriverScore a route
       = Double.Math_max 0%float
           (100 - (if Double.isFatigued a then 30 else 0)
            - Double.ofZ (Z.of_nat (length (Double.assignedOrders a))) * 5
            - Double.totalDistance a * 0.1)%float)
  ∧ (∀ a route,
       Double.canDriverHandleOrder a route maxHours st
       = negb (Double.gtb
                 (Double.totalHours a
                  + Double.Route.adjustedTime route / 60)%float
                 maxHours))
  ∧ ∀ assignments order route,
      Double.routeMapOf routes !! Double.Order.assignedRoute order
      = Some route →
      (∃ j a,
         assignments !! j = Some a
         ∧ Double.chosenDriver route maxHours st assignments j
         ∧ Double.assignOrder (Double.routeMapOf routes) maxHours st
             assignments order
           = <[j := {| Double.driverId := Double.driverId a;
                       Double.driverName := Double.driverName a;
                       Double.assignedOrders :=
                         Double.assignedOrders a
                         ++ [Double.Order.orderId order];
                       Double.totalHours :=
                         (Double.totalHours a
                          + Double.Route.adjustedTime route / 60)%float;
                       Double.totalDistance :=
                         (Double.totalDistance a
                          + Double.Route.distance route)%float;
                       Double.isFatigued := Double.isFatigued a |}]>
               assignments)
      ∨ ((∀ k a, assignments !! k = Some a →
            Double.canDriverHandleOrder a route maxHours st = true →
            is_nan (Double.calculateDriverScore a route) = true)
         ∧ Double.assignOrder (Double.routeMapOf routes) maxHours st
             assignments order
           = assignments).
Proof.
  intros sortedOrders. split; [|split; [|split; [|split]]].
  - split; [apply Double_sort_sorted|].
    split; [apply Array_sort_Permutation|].
    intros d. apply Double_sort_stable.
  - reflexivity.
  - apply Double_calculateDriverScore_formula.
  - intros a route. apply Double_canDriverHandleOrder_spec.
  - intros assignments order route. apply Double_assignOrder_spec.
Qed.

Lemma assignment_rule_witness :
  let assignments :=
    map Double.initialAssignment
      [Double.Sample.tired "driver1"; Double.Sample.rested "driver2"] in
  (∃ j a,
     assignments !! j = Some a
     ∧ Double.chosenDriver Double.Sample.routeR001 10%float
         Double.Sample.start assignments j
     ∧ Double.assignOrder (Double.routeMapOf [Double.Sample.routeR001])
         10%float Double.Sample.start assignments Double.Sample.orderO001
       = <[j := {| Double.driverId := Double.driverId a;
                   Double.driverName := Double.driverName a;
                   Double.assignedOrders :=
                     Double.assignedOrders a ++ ["O001"%string];
                   Double.totalHours :=
                     (Double.totalHours a
                      + Double.Route.adjustedTime Double.Sample.routeR001
                        / 60)%float;
                   Double.totalDistance :=
                     (Double.totalDistance a
                      + Double.Route.distance Double.Sample.routeR001)%float;
                   Double.isFatigued := Double.isFatigued a |}]>
           assignments)
  ∨ ((∀ k a, assignments !! k = Some a →
        Double.canDriverHandleOrder a Double.Sample.routeR001 10%float
          Double.Sample.start = true →
        is_nan (Double.calculateDriverScore a Double.Sample.routeR001)
        = true)
     ∧ Double.assignOrder (Double.routeMapOf [Double.Sample.routeR001])
         10%float Double.Sample.start assignments Double.Sample.orderO001
       = assignments).
Proof.
  intros assignments.
  destruct (assignment_rule
              [Double.Sample.tired "driver1"; Double.Sample.rested "driver2"]
              [Double.Sample.orderO001] [Double.Sample.routeR001]
              Double.Sample.start 10%float)
    as (_ & _ & _ & _ & Hstep).
  apply (Hstep assignments Double.Sample.orderO001). vm_compute. reflexivity.
Defined.

(** The rounding decides between two drivers whose scores are equal:
    after three orders the two tired drivers have one order and 164 km,
    and two orders and 114 km, so that both score 48.6 by the formula and
    the first of them should get the fourth order; the code computes
    48.599999999999994 for the first and 48.6 for the second, who gets
    it. *)
Lemma assignment_rule_counterexample :
  let drivers := [Double.Sample.tired "D0"; Double.Sample.tired "D1"] in
  let before :=
    Double.assignOrdersToDrivers drivers Double.Sample.threeOrders
      Double.Sample.fourRoutes Double.Sample.start 24%float in
  ∃ a0 a1 route,
    before = [a0; a1]
    ∧ Double.routeMapOf Double.Sample.fourRoutes
        !! Double.Order.assignedRoute Double.Sample.orderP3
      = Some route
    ∧ Double.canDriverHandleOrder a0 route 24%float Double.Sample.start
      = true
    ∧ Double.canDriverHandleOrder a1 route 24%float Double.Sample.start
      = true
    ∧ match Double.exactScore a0, Double.exactScore a1 with
      | Some s0, Some s1 => (s0 == s1)%Q ∧ (s0 == 486 # 10)%Q
      | _, _ => False
      end
    ∧ Double.assignOrder (Double.routeMapOf Double.Sample.fourRoutes)
        24%float Double.Sample.start before Double.Sample.orderP3
      = [a0; Double.assignTo Double.Sample.orderP3 route a1]
    ∧ Double.assignOrdersToDrivers drivers
        (Double.Sample.threeOrders ++ [Double.Sample.orderP3])
        Double.Sample.fourRoutes Double.Sample.start 24%float
      = [a0; Double.assignTo Double.Sample.orderP3 route a1].
Proof.
  intros drivers before. do 3 eexists.
  split; [vm_compute; reflexivity|].
  split; [vm_compute; reflexivity|].
  do 2 (split; [vm_compute; reflexivity|]).
  split; [vm_compute; done|].
  split; vm_compute; reflexivity.
Qed.

(** ** The time of delivery where the clocks change

    [setMinutes] works on the fields of the local time: in New York, on
    the night the clocks go back, a route of 90 minutes begun at 0:30
    ends at 2:00 local time, 150 minutes later. *)
Example delivery_across_daylight_saving :
  Double.calculateDeliveryTime Double.Sample.newYork (Some 1730608200000)
    Double.Sample.longRoute false
  = Some (1730608200000 + 150 * 60000).
Proof. vm_compute. reflexivity. Qed.

(** ** Further properties in double precision *)

(** X9. When the orders have distinct ids, the [totalDistance] of every
    returned assignment is the distance of its assigned orders as double
    precision adds them up, one route after the other in the order of
    assignment. *)
Theorem distance_accounted drivers orders routes st maxHours a :
  NoDup (map Double.Order.orderId orders) →
  a ∈ Double.assignOrdersToDrivers drivers orders routes st maxHours →
  Double.totalDistance a
  = Double.runningDistance routes orders (Double.assignedOrders a).
Proof.
  intros Hnd Ha. by destruct (Double_running_totals _ _ _ _ _ _ Hnd Ha).
Qed.

Lemma distance_accounted_witness :
  Double.totalDistance Double.Sample.assignment
  = Double.runningDistance [Double.Sample.routeR001]
      [Double.Sample.orderO001]
      (Double.assignedOrders Double.Sample.assignment).
Proof.
  apply (distance_accounted [Double.Sample.rested "driver1"]
           [Double.Sample.orderO001] [Double.Sample.routeR001]
           Double.Sample.start 10%float Double.Sample.assignment).
  - apply NoDup_singleton.
  - vm_compute. left.
Defined.

Lemma Double_find_assigned_none (assignments : list Double.DriverAssignment)
    id :
  (∀ d, d ∈ assignments → id ∉ Double.assignedOrders d) →
  List.find (λ d, includes (Double.assignedOrders d) id) assignments = None.
Proof.
  intros Hnone. induction assignments as [|d l IH]; [done|].
  simpl. unfold includes at 1. case_bool_decide as Hin.
  - destruct (Hnone d); [left | done].
  - apply IH. intros d' Hd'. apply Hnone. by right.
Qed.

(** X15. An order that is in no driver's list is reported as
    ["Unassigned"] and timed as if a rested driver took it: its result is
    on time exactly when the delivery of a driver who is not fatigued,
    from the start of the day, is not after its deadline. *)
Theorem unassigned_scored_as_rested tz orders routes assignments st rs :
  Double.calculateOrderResults tz orders routes assignments st = Ok rs →
  Forall2
    (λ o r,
       (∀ d, d ∈ assignments →
             Double.Order.orderId o ∉ Double.assignedOrders d) →
       ∃ route,
         Double.routeMapOf routes !! Double.Order.assignedRoute o = Some route
         ∧ Double.assignedDriver r = "Unassigned"%string
         ∧ (Double.deliveryStatus r = OnTime
            ↔ Double.JSDate.le
                (Double.calculateDeliveryTime tz st route false)
                (Some (Double.Order.deliveryTimestamp o)) = true))
    orders rs.
Proof.
  unfold Double.calculateOrderResults. intros Hrs. apply mapM_Ok in Hrs.
  eapply Forall2_impl; [exact Hrs|]. intros o r Hr Hnone. cbn beta in Hr.
  unfold Double.orderResult in Hr.
  destruct (Double.routeMapOf routes !! Double.Order.assignedRoute o)
    as [route|]; [|done].
  injection Hr as <-. exists route. cbn zeta.
  rewrite (Double_find_assigned_none _ _ Hnone).
  cbn [Double.assignedDriver Double.deliveryStatus from_option orElse].
  do 2 (split; [done|]).
  by destruct (Double.JSDate.le _ _).
Qed.

Lemma unassigned_scored_as_rested_witness :
  Forall2
    (λ o r,
       (∀ d, d ∈ [] → Double.Order.orderId o ∉ Double.assignedOrders d) →
       ∃ route,
         Double.routeMapOf [Double.Sample.routeR001]
           !! Double.Order.assignedRoute o
         = Some route
         ∧ Double.assignedDriver r = "Unassigned"%string
         ∧ (Double.deliveryStatus r = OnTime
            ↔ Double.JSDate.le
                (Double.calculateDeliveryTime Double.Sample.utc
                   Double.Sample.start route false)
                (Some (Double.Order.deliveryTimestamp o)) = true))
    [Double.Sample.order1001]
    [{| Double.orderId := "O001"; Double.assignedDriver := "Unassigned";
        Double.routeId := "R001"; Double.orderValue := 1001;
        Double.deliveryStatus := OnTime; Double.fuelCost := 125;
        Double.penalty := 0; Double.bonus := 100.10000000000001;
        Double.profit := 976.0999999999999 |}]%float.
Proof.
  apply (unassigned_scored_as_rested Double.Sample.utc
           [Double.Sample.order1001] [Double.Sample.routeR001] []
           Double.Sample.start).
  vm_compute. reflexivity.
Defined.

End DoubleProperties.
